(** * GREEN-GROW account backend: a shallow embedding of [server/server.js]

    The server is request/response glue over a document collection
    ([User]), a password hasher ([bcrypt]) and a token signer ([jwt]).
    The embedding keeps the shape of the source:

    - the collection is a list of documents in insertion order, which is
      what [findOne] scans;
    - every awaited call of a handler may throw; which ones do in a given
      execution is read from the environment of that execution;
    - a handler body runs inside [try { ... } catch], so it is a
      computation in a small monad with three outcomes (value, early
      [return res...], exception) that threads the collection.

    Request fields are optional strings ([None] is an absent or null
    field).  A stored balance is a JavaScript number, that is a double,
    or one of the values that are no number; the finite doubles are kept
    by their exact value, an integer or a dyadic fraction, and the sum
    of line 73 is rounded as the double addition rounds it. *)

From Stdlib Require Import List String Ascii ZArith Lia Bool Arith.
From Stdlib Require Floats.
Import ListNotations.
Open Scope string_scope.
Open Scope list_scope.

(* ------------------------------------------------------------------ *)
(** ** JavaScript primitives used by the handlers *)

Module JS.

(** [!x] on a request field or header: absent and empty are falsy. *)
Definition truthy (o : option string) : bool :=
  match o with
  | Some s => negb (s =? EmptyString)
  | None => false
  end.

(** [x || null] on a request field. *)
Definition or_null (o : option string) : option string :=
  if truthy o then o else None.

(** [s.split(sep)] for a one-character separator: every occurrence of
    the separator ends a segment, so consecutive separators give empty
    segments and the result is never the empty array. *)
Fixpoint split (sep : ascii) (s : string) : list string :=
  match s with
  | EmptyString => [EmptyString]
  | String c rest =>
      if Ascii.eqb c sep then EmptyString :: split sep rest
      else match split sep rest with
           | seg :: segs => String c seg :: segs
           | [] => [String c EmptyString]
           end
  end.

(** The text of a field that the caller has tested to be truthy. *)
Definition text (o : option string) : string :=
  match o with
  | Some s => s
  | None => EmptyString
  end.

(** [a[i]]: [None] is [undefined]. *)
Definition index {A : Type} (a : list A) (i : nat) : option A :=
  nth_error a i.

(** [s.substring(from, to)] with [from <= to]. *)
Definition substring (from to : nat) (s : string) : string :=
  String.substring from (to - from) s.

Definition is_lower (c : ascii) : bool :=
  (97 <=? nat_of_ascii c)%nat && (nat_of_ascii c <=? 122)%nat.

Definition is_upper (c : ascii) : bool :=
  (65 <=? nat_of_ascii c)%nat && (nat_of_ascii c <=? 90)%nat.

Definition is_digit (c : ascii) : bool :=
  (48 <=? nat_of_ascii c)%nat && (nat_of_ascii c <=? 57)%nat.

Definition upper_char (c : ascii) : ascii :=
  if is_lower c then ascii_of_nat (nat_of_ascii c - 32) else c.

(** [s.toUpperCase()] on ASCII text. *)
Fixpoint toUpperCase (s : string) : string :=
  match s with
  | EmptyString => EmptyString
  | String c rest => String (upper_char c) (toUpperCase rest)
  end.

(** Values a stored [Number] field can be read as: absent, null, or a
    double.  A finite double is kept by its exact value: [Num n] is the
    integer [n], [Frac m k] is [m / 2^k] with [m] odd and [k >= 1] (the
    doubles that are no integers); [-0] is not told from [0], which the
    code does not either. *)
Inductive number : Type :=
| Undefined
| Null
| NaN
| Inf (negative : bool)
| Num (n : Z)
| Frac (m : Z) (k : nat).

(** [m / 2^k] in lowest terms. *)
Fixpoint normalize (m : Z) (k : nat) : number :=
  match k with
  | O => Num m
  | S k' => if Z.even m then normalize (m / 2) k' else Frac m k
  end.

(** The double nearest to [m / 2^k], as the operations on doubles round
    their exact result: 53 significant bits are kept, the bits below
    them round to nearest and on a tie to the even neighbour, and what
    reaches [2^1024] is an infinity. *)
Definition round_to_double (m : Z) (k : nat) : number :=
  let a := Z.abs m in
  let bits := Z.log2 a in
  if (bits <? 53)%Z then normalize m k
  else
    let s := (bits - 52)%Z in
    let q := (a / 2 ^ s)%Z in
    let r := (a mod 2 ^ s)%Z in
    let half := (2 ^ (s - 1))%Z in
    let q' := if (half <? r)%Z || ((r =? half)%Z && Z.odd q)
              then (q + 1)%Z else q in
    if (s <? Z.of_nat k)%Z then normalize (Z.sgn m * q') (k - Z.to_nat s)
    else
      let n := (q' * 2 ^ (s - Z.of_nat k))%Z in
      if (2 ^ 1024 <=? n)%Z then Inf (m <? 0)%Z else Num (Z.sgn m * n).

(** [!x] on a number: 0 and NaN are falsy, as absent and null are. *)
Definition falsy_number (x : number) : bool :=
  match x with
  | Num n => (n =? 0)%Z
  | Frac m _ => (m =? 0)%Z
  | Inf _ => false
  | _ => true
  end.

(** [x || 0]. *)
Definition or_zero (x : number) : number :=
  if falsy_number x then Num 0 else x.

(** [x + c] for an integer literal [c]: null counts as 0, undefined
    gives NaN, and the exact sum of two doubles is rounded. *)
Definition plus (x : number) (c : Z) : number :=
  match x with
  | Undefined => NaN
  | Null => round_to_double c 0
  | NaN => NaN
  | Inf negative => Inf negative
  | Num n => round_to_double (n + c) 0
  | Frac m k => round_to_double (m + c * 2 ^ Z.of_nat k) k
  end.

(** A number other than NaN. *)
Definition numeric (x : number) : bool :=
  match x with
  | Inf _ => true
  | Num _ => true
  | Frac _ _ => true
  | _ => false
  end.

Definition number_eqb (x y : number) : bool :=
  match x, y with
  | Undefined, Undefined => true
  | Null, Null => true
  | NaN, NaN => true
  | Inf s, Inf t => Bool.eqb s t
  | Num a, Num b => (a =? b)%Z
  | Frac a k, Frac b l => (a =? b)%Z && (k =? l)%nat
  | _, _ => false
  end.

End JS.

(* ------------------------------------------------------------------ *)
(** ** The doubles of the machine *)

(** The link between [JS.number] and the binary64 floats of the kernel,
    used to check [JS.plus] against the addition of doubles. *)
Module Binary64.

(** The double [m * 2^e], for [|m| < 2^53]. *)
Definition of_dyadic (m e : Z) : PrimFloat.float :=
  let f := PrimFloat.of_uint63 (Uint63.of_Z (Z.abs m)) in
  FloatOps.Z.ldexp (if (m <? 0)%Z then PrimFloat.opp f else f) e.

(** The value of a double. *)
Definition to_number (f : PrimFloat.float) : JS.number :=
  match FloatOps.Prim2SF f with
  | SpecFloat.S754_zero _ => JS.Num 0
  | SpecFloat.S754_infinity negative => JS.Inf negative
  | SpecFloat.S754_nan => JS.NaN
  | SpecFloat.S754_finite negative m e =>
      let v := if negative then Z.neg m else Z.pos m in
      if (0 <=? e)%Z then JS.Num (v * 2 ^ e)
      else JS.normalize v (Z.to_nat (- e))
  end.

(** [x + c] computed on doubles and by [JS.plus] give the same. *)
Definition plus_agrees (c : Z) (x : Z * Z) : bool :=
  let f := of_dyadic (fst x) (snd x) in
  JS.number_eqb (to_number (PrimFloat.add f (of_dyadic c 0)))
                (JS.plus (to_number f) c).

(** Doubles [m * 2^e] around every case of the rounding: small and
    fractional values, the first integers past [2^53], ties to both
    sides, negative values, subnormals and the largest doubles. *)
Definition samples : list (Z * Z) :=
  [(0, 0); (1, 0); (1, -1); (-1, -1); (3602879701896397, -55);
   (-1000, 0); (-2001, -1); (-8796093022207999, -43);
   (1, 60); (1, 53); (9007199254740991, 0); (9007199254739993, 0);
   (9007199254739992, 0); (9007199254739991, 0); (4503599627370497, -1);
   (1, 56); (4503599627370497, 4); (4503599627370498, 4);
   (-1, 56); (-4503599627370497, 4); (1, 55); (4503599627370497, 3);
   (1, 54); (4503599627370497, 2); (4503599627370499, 2);
   (-9007199254741992, 0); (-4503599627370995, 1);
   (5, 70); (7, 300); (9007199254740991, 971); (-9007199254740991, 971);
   (1, -1074); (-1, -1074); (2024, -1074); (1, -1022); (1, -30);
   (8796972631510221, -43); (1, 10); (1023, 0); (65535999999999, -30);
   (9007199254740991, -3); (9007199254740989, -2); (-9007199254740991, -5);
   (9007199254740991, -1); (6004799503160661, -54); (1, 1023)]%Z.

End Binary64.

(* ------------------------------------------------------------------ *)
(** ** Referral codes *)

Definition space : ascii := " "%char.

(** The radix-36 digits, lower case, as [toString(36)] prints them. *)
Definition is_radix36_digit (c : ascii) : bool :=
  JS.is_digit c || JS.is_lower c.

Definition is_upper_alnum (c : ascii) : bool :=
  JS.is_digit c || JS.is_upper c.

Fixpoint all_chars (p : ascii -> bool) (s : string) : bool :=
  match s with
  | EmptyString => true
  | String c rest => p c && all_chars p rest
  end.

(** [genReferral()].  Its argument is the text of
    [Math.random().toString(36)] for the draw of this call: ["0"] for a
    draw of 0, otherwise ["0."] followed by the radix-36 digits of the
    fraction (["0.i"] for a draw of 0.5). *)
Definition genReferral (random36 : string) : string :=
  ("GG" ++ JS.toUpperCase (JS.substring 2 8 random36))%string.

(** What [Math.random().toString(36)] can print. *)
Definition is_random36 (s : string) : bool :=
  match s with
  | String "0" EmptyString => true
  | String "0" (String "." ds) =>
      negb (ds =? EmptyString) && all_chars is_radix36_digit ds
  | _ => false
  end.

(** The referral-code format: the prefix, then exactly six upper-case
    alphanumeric characters. *)
Definition referral_format (code : string) : bool :=
  match code with
  | String "G" (String "G" tail) =>
      (String.length tail =? 6)%nat && all_chars is_upper_alnum tail
  | _ => false
  end.

(* ------------------------------------------------------------------ *)
(** ** Data model: the [User] collection *)

(** A document of [UserSchema].  [_id] is the ObjectId the driver
    assigns; [referredBy] is [None] when stored as null. *)
Record User : Type := mkUser {
  _id : nat;
  email : string;
  passwordHash : string;
  fullName : option string;
  phone : option string;
  country : option string;
  city : option string;
  zipCode : option string;
  referralCode : string;
  referredBy : option string;
  balance : JS.number;
  points : Z;
  createdAt : Z
}.

Definition store : Type := list User.

(** [doc.balance = b]. *)
Definition with_balance (u : User) (b : JS.number) : User :=
  mkUser (_id u) (email u) (passwordHash u) (fullName u) (phone u)
         (country u) (city u) (zipCode u) (referralCode u) (referredBy u)
         b (points u) (createdAt u).

(** Identity claims carried by a token: [{id, email}]. *)
Record claims : Type := mkClaims {
  id : nat;
  claim_email : string
}.

Inductive json : Type :=
| JNull
| JString (s : string)
| JNumber (n : Z)
| JFraction (m : Z) (k : nat)
| JObjectId (n : nat).

Definition object : Type := list (string * json).

Record response : Type := mkResponse {
  status : nat;
  body : object
}.

(** [res.status(code).json({error: msg})]. *)
Definition error (code : nat) (msg : string) : response :=
  mkResponse code [("error", JString msg)].

(** [res.json(obj)]: the status stays 200. *)
Definition ok (obj : object) : response := mkResponse 200 obj.

(** The awaited or throwing calls of the handlers. *)
Inductive call : Type :=
| FindByEmail      (* User.findOne({email}) *)
| Hash             (* bcrypt.hash(password, 10) *)
| FindByReferral   (* User.findOne({referralCode}) *)
| SaveSponsor      (* sponsor.save() *)
| SaveUser         (* u.save() *)
| Sign             (* jwt.sign(...) *)
| Compare          (* bcrypt.compare(...) *)
| FindById.        (* User.findById(...) *)

(** What one execution of a handler gets from outside: which calls
    throw, the text of the [Math.random()] draw, the clock, and the
    results of the password and token primitives.  [jwt_verify] is
    [None] where [jwt.verify] throws (bad signature, expired, malformed). *)
Record env : Type := mkEnv {
  fails : call -> bool;
  random36 : string;
  now : Z;
  bcrypt_hash : string -> string;
  bcrypt_compare : string -> string -> bool;
  jwt_sign : claims -> string;
  jwt_verify : string -> option claims
}.

(* ------------------------------------------------------------------ *)
(** ** Collection operations *)

Module Db.

Definition by_email (x : string) (u : User) : bool := email u =? x.
Definition by_referral (x : string) (u : User) : bool := referralCode u =? x.
Definition by_id (x : nat) (u : User) : bool := (_id u =? x)%nat.

(** [findOne(filter)]: the first matching document. *)
Definition findOne (filter : User -> bool) (s : store) : option User :=
  find filter s.

(** The update issued by [doc.save()] on a fetched document whose
    [balance] was assigned: the document with that [_id] gets the new
    balance. *)
Fixpoint set_balance (i : nat) (b : JS.number) (s : store) : store :=
  match s with
  | [] => []
  | u :: rest =>
      if by_id i u then with_balance u b :: rest
      else u :: set_balance i b rest
  end.

(** The ObjectId of a new document: not used by any stored one. *)
Definition fresh_id (s : store) : nat :=
  S (fold_right Nat.max 0%nat (map _id s)).

(** The insert issued by [doc.save()] on a new document; the unique
    index on [email] rejects a second document with the same email. *)
Definition insert (u : User) (s : store) : option store :=
  match findOne (by_email (email u)) s with
  | Some _ => None
  | None => Some (s ++ [u])
  end.

(** ObjectIds are unique in a collection. *)
Definition wf (s : store) : Prop := NoDup (map _id s).

End Db.

(* ------------------------------------------------------------------ *)
(** ** Handler computations *)

(** A step of a handler body inside [try]: it yields a value, or the
    handler returns a response, or something throws. *)
Inductive outcome (A : Type) : Type :=
| Value (a : A)
| Returned (r : response)
| Thrown.

Arguments Value {A} a.
Arguments Returned {A} r.
Arguments Thrown {A}.

Definition handler (A : Type) : Type := store -> outcome A * store.

Definition ret {A : Type} (a : A) : handler A := fun s => (Value a, s).

Definition bind {A B : Type} (m : handler A) (k : A -> handler B) : handler B :=
  fun s =>
    match m s with
    | (Value a, s') => k a s'
    | (Returned r, s') => (Returned r, s')
    | (Thrown, s') => (Thrown, s')
    end.

Notation "x <- m ;; k" := (bind m (fun x => k))
  (at level 61, m at next level, right associativity).
Notation "m ;;; k" := (bind m (fun _ => k))
  (at level 61, right associativity).

(** [return res...]. *)
Definition respond {A : Type} (r : response) : handler A :=
  fun s => (Returned r, s).

Definition throw {A : Type} : handler A := fun s => (Thrown, s).

(** A call that reads the collection. *)
Definition query {A : Type} (e : env) (c : call) (f : store -> A) : handler A :=
  fun s => if fails e c then (Thrown, s) else (Value (f s), s).

(** A call that computes outside the collection. *)
Definition compute {A : Type} (e : env) (c : call) (a : A) : handler A :=
  fun s => if fails e c then (Thrown, s) else (Value a, s).

(** [try { body } catch(err) { return res.status(500).json(...) }]. *)
Definition try_catch (m : handler response) : store -> response * store :=
  fun s =>
    match m s with
    | (Value r, s') => (r, s')
    | (Returned r, s') => (r, s')
    | (Thrown, s') => (error 500 "Server error", s')
    end.

(* ------------------------------------------------------------------ *)
(** ** POST /api/auth/register *)

Record register_request : Type := mkRegister {
  reg_email : option string;
  reg_password : option string;
  reg_fullName : option string;
  reg_phone : option string;
  reg_country : option string;
  reg_city : option string;
  reg_zipCode : option string;
  reg_referralCode : option string
}.

(** The sponsor commission. *)
Definition commission : Z := 1000.

(** [(sponsor.balance || 0) + 1000]. *)
Definition credit (b : JS.number) : JS.number :=
  JS.plus (JS.or_zero b) commission.

(** [new User({...})]: the schema defaults fill [balance], [points] and
    [createdAt], the driver assigns [_id]. *)
Definition new_User (e : env) (i : nat) (r : register_request)
           (hash userReferral : string) : User :=
  mkUser i (JS.text (reg_email r)) hash
         (reg_fullName r) (reg_phone r) (reg_country r) (reg_city r)
         (reg_zipCode r)
         userReferral (JS.or_null (reg_referralCode r))
         (JS.Num 0) 0%Z (now e).

(** [await sponsor.save()]. *)
Definition save_sponsor (e : env) (sponsor : User) : handler unit :=
  fun s =>
    if fails e SaveSponsor then (Thrown, s)
    else (Value tt, Db.set_balance (_id sponsor) (balance sponsor) s).

(** [await u.save()]. *)
Definition save_user (e : env) (u : User) : handler unit :=
  fun s =>
    if fails e SaveUser then (Thrown, s)
    else match Db.insert u s with
         | Some s' => (Value tt, s')
         | None => (Thrown, s)
         end.

(** The sponsor block: [if(referralCode){ ... if(sponsor){ ... } }]. *)
Definition credit_sponsor (e : env) (r : register_request) : handler unit :=
  if JS.truthy (reg_referralCode r) then
    sponsor <- query e FindByReferral
                 (Db.findOne (Db.by_referral (JS.text (reg_referralCode r)))) ;;
    match sponsor with
    | Some sponsor =>
        save_sponsor e (with_balance sponsor (credit (balance sponsor)))
    | None => ret tt
    end
  else ret tt.

Definition registered (token userReferral : string) : response :=
  ok [("message", JString "Registered successfully");
      ("token", JString token);
      ("referralCode", JString userReferral)].

Definition register_body (e : env) (r : register_request) : handler response :=
  if negb (JS.truthy (reg_email r)) || negb (JS.truthy (reg_password r)) then
    respond (error 400 "Email and password required")
  else
    exists_ <- query e FindByEmail
                 (Db.findOne (Db.by_email (JS.text (reg_email r)))) ;;
    match exists_ with
    | Some _ => respond (error 400 "Email already registered")
    | None =>
        hash <- compute e Hash (bcrypt_hash e (JS.text (reg_password r))) ;;
        let userReferral := genReferral (random36 e) in
        i <- (fun s => (Value (Db.fresh_id s), s)) ;;
        let u := new_User e i r hash userReferral in
        credit_sponsor e r ;;;
        save_user e u ;;;
        token <- compute e Sign (jwt_sign e (mkClaims (_id u) (email u))) ;;
        respond (registered token userReferral)
    end.

Definition register (e : env) (r : register_request)
  : store -> response * store :=
  try_catch (register_body e r).

(** The handler once the checks are passed and the password is hashed,
    for a request that arrives at collection [s]: the document built by
    [new User], and the two writes with the answer. *)
Definition candidate (e : env) (r : register_request) (s : store) : User :=
  new_User e (Db.fresh_id s) r
           (bcrypt_hash e (JS.text (reg_password r)))
           (genReferral (random36 e)).

Definition insert_and_answer (e : env) (r : register_request) (s : store)
  : handler response :=
  save_user e (candidate e r s) ;;;
  token <- compute e Sign
             (jwt_sign e (mkClaims (_id (candidate e r s))
                                   (email (candidate e r s)))) ;;
  respond (registered token (genReferral (random36 e))).

Definition persist_and_answer (e : env) (r : register_request) (s : store)
  : handler response :=
  credit_sponsor e r ;;; insert_and_answer e r s.

(** The three ways the handler can end once the sponsor block has left
    the collection at [s1]. *)
Definition ending (e : env) (r : register_request) (s s1 : store)
  : response * store :=
  if fails e SaveUser then (error 500 "Server error", s1)
  else if fails e Sign then
    (error 500 "Server error", s1 ++ [candidate e r s])
  else
    (registered (jwt_sign e (mkClaims (Db.fresh_id s)
                                      (JS.text (reg_email r))))
                (genReferral (random36 e)),
     s1 ++ [candidate e r s]).

(** The collection with the commission written to [sponsor]. *)
Definition credited (sponsor : User) (s : store) : store :=
  Db.set_balance (_id sponsor) (credit (balance sponsor)) s.

(* ------------------------------------------------------------------ *)
(** ** POST /api/auth/login *)

Record login_request : Type := mkLogin {
  login_email : option string;
  login_password : option string
}.

Definition logged_in (token : string) : response :=
  ok [("message", JString "Login successful"); ("token", JString token)].

Definition login_body (e : env) (r : login_request) : handler response :=
  if negb (JS.truthy (login_email r)) || negb (JS.truthy (login_password r)) then
    respond (error 400 "Email and password required")
  else
    user <- query e FindByEmail
              (Db.findOne (Db.by_email (JS.text (login_email r)))) ;;
    match user with
    | None => respond (error 400 "Invalid credentials")
    | Some user =>
        matches <- compute e Compare
                     (bcrypt_compare e (JS.text (login_password r))
                                     (passwordHash user)) ;;
        if negb matches then respond (error 400 "Invalid credentials")
        else
          token <- compute e Sign
                     (jwt_sign e (mkClaims (_id user) (email user))) ;;
          respond (logged_in token)
    end.

Definition login (e : env) (r : login_request) : store -> response * store :=
  try_catch (login_body e r).

(* ------------------------------------------------------------------ *)
(** ** The [auth] middleware *)

(** The part of the request the guarded routes use: the authorization
    header and the [user] property that [auth] assigns. *)
Record request : Type := mkRequest {
  authorization : option string;
  user : option claims
}.

(** [auth] either answers itself or assigns [req.user] and calls
    [next()]. *)
Inductive guard : Type :=
| Rejected (r : response)
| Next (req : request).

(** [jwt.verify(token, secret)] inside [try]: [None] where it throws,
    which it does on an undefined token. *)
Definition verify (e : env) (token : option string) : option claims :=
  match token with
  | Some t => jwt_verify e t
  | None => None
  end.

(** [header.split(' ')[1]]. *)
Definition token_of (header : string) : option string :=
  JS.index (JS.split space header) 1.

Definition auth (e : env) (req : request) : guard :=
  if negb (JS.truthy (authorization req)) then
    Rejected (error 401 "No token")
  else
    match verify e (token_of (JS.text (authorization req))) with
    | Some data => Next (mkRequest (authorization req) (Some data))
    | None => Rejected (error 401 "Invalid token")
    end.

(** A word without the separator of [split(' ')]. *)
Definition no_space (w : string) : bool :=
  all_chars (fun c => negb (Ascii.eqb c space)) w.

(** [scheme + ' ' + token], the form of the header clients send. *)
Definition header_of (scheme token : string) : string :=
  (scheme ++ String space token)%string.

(** [app.METHOD(path, auth, h)]. *)
Definition guarded (e : env) (h : request -> store -> response * store)
           (req : request) : store -> response * store :=
  fun s =>
    match auth e req with
    | Rejected r => (r, s)
    | Next req' => h req' s
    end.

(* ------------------------------------------------------------------ *)
(** ** GET /api/user/me *)

Definition text_field (k : string) (v : option string) : object :=
  match v with
  | Some x => [(k, JString x)]
  | None => []
  end.

Definition number_field (k : string) (v : JS.number) : object :=
  match v with
  | JS.Undefined => []
  | JS.Null => [(k, JNull)]
  | JS.NaN => [(k, JNull)]
  | JS.Inf _ => [(k, JNull)]
  | JS.Num n => [(k, JNumber n)]
  | JS.Frac m j => [(k, JFraction m j)]
  end.

(** The document as [res.json] serialises it. *)
Definition toObject (u : User) : object :=
  ([("_id", JObjectId (_id u));
    ("email", JString (email u));
    ("passwordHash", JString (passwordHash u))]
   ++ text_field "fullName" (fullName u)
   ++ text_field "phone" (phone u)
   ++ text_field "country" (country u)
   ++ text_field "city" (city u)
   ++ text_field "zipCode" (zipCode u)
   ++ [("referralCode", JString (referralCode u));
       ("referredBy", match referredBy u with
                      | Some c => JString c
                      | None => JNull
                      end)]
   ++ number_field "balance" (balance u)
   ++ [("points", JNumber (points u));
       ("createdAt", JNumber (createdAt u))]).

(** [.select('-field')]: the projection that leaves one field out. *)
Definition select_minus (field : string) (o : object) : object :=
  filter (fun kv => negb (fst kv =? field)) o.

(** [User.findById(id).select('-passwordHash')]. *)
Definition findById_select (i : nat) (s : store) : option object :=
  option_map (fun u => select_minus "passwordHash" (toObject u))
             (Db.findOne (Db.by_id i) s).

Definition me_body (e : env) (req : request) : handler response :=
  match user req with
  | None => throw
  | Some data =>
      found <- query e FindById (findById_select (id data)) ;;
      match found with
      | None => respond (error 404 "User not found")
      | Some doc => respond (ok doc)
      end
  end.

Definition me (e : env) : request -> store -> response * store :=
  guarded e (fun req => try_catch (me_body e req)).

(* ------------------------------------------------------------------ *)
(** ** POST /api/payment/process *)

Definition payment_message : string :=
  "Payment processing simulated. Integrate Stripe for live payments.".

Definition payment (e : env) : request -> store -> response * store :=
  guarded e (fun _ s => (ok [("message", JString payment_message)], s)).

(* ------------------------------------------------------------------ *)
(** ** The operations of the server *)

Inductive operation : Type :=
| Register (r : register_request)
| Login (r : login_request)
| Me (req : request)
| Payment (req : request).

Definition step (e : env) (op : operation) : store -> response * store :=
  match op with
  | Register r => register e r
  | Login r => login e r
  | Me req => me e req
  | Payment req => payment e req
  end.

(** A sequence of requests, each with the environment of its execution. *)
Fixpoint run (trace : list (env * operation)) (s : store) : store :=
  match trace with
  | [] => s
  | (e, op) :: rest => run rest (snd (step e op s))
  end.

(** Everything of a document except its balance. *)
Definition same_but_balance (u v : User) : Prop :=
  v = with_balance u (balance v).

(** A request [op] credits the holder of referral code [u]: it is a
    registration that names that code, made for another email. *)
Definition credits (op : operation) (u : User) : Prop :=
  match op with
  | Register r =>
      JS.truthy (reg_referralCode r) = true
      /\ reg_referralCode r = Some (referralCode u)
      /\ reg_email r <> Some (email u)
  | _ => False
  end.

(* ------------------------------------------------------------------ *)
(** ** Sample data *)

Module Sample.

(** An execution in which nothing throws; tokens are the email of the
    account, and a token verifies when it names account 1. *)
Definition quiet : env :=
  mkEnv (fun _ => false) "0.4fzyo82mvyr" 1700000000000%Z
        (fun pw => ("$2b$10$" ++ pw)%string)
        (fun pw h => (h =? "$2b$10$" ++ pw)%string)
        (fun c => ("jwt." ++ claim_email c)%string)
        (fun t => if t =? "jwt.a@x.com" then Some (mkClaims 1 "a@x.com")
                  else None).

(** The same, with [Math.random()] drawing 0.5. *)
Definition half : env :=
  mkEnv (fails quiet) "0.i" (now quiet) (bcrypt_hash quiet)
        (bcrypt_compare quiet) (jwt_sign quiet) (jwt_verify quiet).

(** The same as [quiet], with [u.save()] throwing. *)
Definition save_user_down : env :=
  mkEnv (fun c => match c with SaveUser => true | _ => false end)
        (random36 quiet) (now quiet) (bcrypt_hash quiet)
        (bcrypt_compare quiet) (jwt_sign quiet) (jwt_verify quiet).

(** The same as [quiet], with [User.findById] throwing. *)
Definition find_by_id_down : env :=
  mkEnv (fun c => match c with FindById => true | _ => false end)
        (random36 quiet) (now quiet) (bcrypt_hash quiet)
        (bcrypt_compare quiet) (jwt_sign quiet) (jwt_verify quiet).

Definition alice : User :=
  mkUser 1 "a@x.com" "$2b$10$pw1" (Some "Alice") None None None None
         "GGR1R1R1" None (JS.Num 0) 0%Z 1600000000000%Z.

(** An account whose stored balance is null. *)
Definition carol : User :=
  mkUser 2 "c@x.com" "$2b$10$pw3" None None None None None
         "GGC3C3C3" None JS.Null 0%Z 1600000000001%Z.

Definition accounts : store := [alice; carol].

Definition join (mail pw : string) (code : option string)
  : register_request :=
  mkRegister (Some mail) (Some pw) None None None None None code.

Definition bearer (header : string) : request :=
  mkRequest (Some header) None.

End Sample.

(* ------------------------------------------------------------------ *)
(** ** Notions for the effects of the handlers *)

(** What the sponsor block of a registration [r] can have made of the
    collection [s]: nothing, or the commission written to the account
    it found. *)
Definition sponsor_step (r : register_request) (s s1 : store) : Prop :=
  s1 = s
  \/ exists sponsor : User,
       JS.truthy (reg_referralCode r) = true
       /\ Db.findOne (Db.by_referral (JS.text (reg_referralCode r))) s
          = Some sponsor
       /\ s1 = credited sponsor s.

(** The unique index on [email]. *)
Definition emails_unique (s : store) : Prop := NoDup (map email s).

(** The registration requests of a sequence. *)
Fixpoint registrations (trace : list (env * operation)) : nat :=
  match trace with
  | [] => 0
  | (_, Register _) :: rest => S (registrations rest)
  | _ :: rest => registrations rest
  end.

(** A sequence of registration requests, as operations. *)
Definition as_registrations (rs : list (env * register_request))
  : list (env * operation) :=
  map (fun er => (fst er, Register (snd er))) rs.

(** The statuses of the answers that blame the request. *)
Definition client_error (code : nat) : bool :=
  (code =? 400)%nat || (code =? 401)%nat || (code =? 404)%nat.

(** The names of the fields of a body. *)
Definition keys (o : object) : list string := map fst o.

(** [scheme + ' ' + token + ' ' + rest]: a header with more after the
    token. *)
Definition header_with_rest (scheme token rest : string) : string :=
  header_of scheme (token ++ String space rest)%string.

Module Cover.

(** The same as [Sample.quiet], with [jwt.sign] throwing. *)
Definition sign_down : env :=
  mkEnv (fun c => match c with Sign => true | _ => false end)
        (random36 Sample.quiet) (now Sample.quiet)
        (bcrypt_hash Sample.quiet) (bcrypt_compare Sample.quiet)
        (jwt_sign Sample.quiet) (jwt_verify Sample.quiet).

(** An execution in which every call throws. *)
Definition all_down : env :=
  mkEnv (fun _ => true)
        (random36 Sample.quiet) (now Sample.quiet)
        (bcrypt_hash Sample.quiet) (bcrypt_compare Sample.quiet)
        (jwt_sign Sample.quiet) (jwt_verify Sample.quiet).

End Cover.

Example register_with_sponsor :
  register Sample.quiet (Sample.join "b@x.com" "pw2" (Some "GGR1R1R1"))
           Sample.accounts
  = (registered "jwt.b@x.com" "GG4FZYO8",
     [with_balance Sample.alice (JS.Num 1000); Sample.carol;
      mkUser 3 "b@x.com" "$2b$10$pw2" None None None None None
             "GG4FZYO8" (Some "GGR1R1R1") (JS.Num 0) 0%Z 1700000000000%Z]).
Proof. reflexivity. Qed.

(* ------------------------------------------------------------------ *)
(** * Properties *)

(** ** Collection lemmas *)

Lemma or_zero_num (n : Z) : JS.or_zero (JS.Num n) = JS.Num n.
Proof.
  unfold JS.or_zero. simpl. destruct (Z.eqb_spec n 0); congruence.
Qed.

Lemma or_zero_falsy (b : JS.number) :
  JS.falsy_number b = true -> JS.or_zero b = JS.Num 0.
Proof.
  unfold JS.or_zero. now intros ->.
Qed.

(** Below [2^53] in magnitude an integer is a double, and rounding
    leaves it as it is. *)
Lemma round_exact (z : Z) :
  (Z.abs z < 2 ^ 53)%Z -> JS.round_to_double z 0 = JS.Num z.
Proof.
  intros Hz. unfold JS.round_to_double.
  assert ((Z.log2 (Z.abs z) <? 53)%Z = true) as ->; [|reflexivity].
  apply Z.ltb_lt.
  destruct (Z.eq_dec (Z.abs z) 0) as [-> | Hnz]; [reflexivity|].
  apply Z.log2_lt_pow2; lia.
Qed.

Lemma normalize_numeric (m : Z) (k : nat) :
  JS.numeric (JS.normalize m k) = true.
Proof.
  revert m. induction k as [|k IH]; intros m; simpl; [reflexivity|].
  destruct (Z.even m); [apply IH | reflexivity].
Qed.

Lemma round_numeric (m : Z) (k : nat) :
  JS.numeric (JS.round_to_double m k) = true.
Proof.
  unfold JS.round_to_double.
  repeat match goal with
         | |- context [if ?c then _ else _] => destruct c
         end;
    try reflexivity; apply normalize_numeric.
Qed.

(** The credited balance is a number whatever the balance was. *)
Lemma credit_numeric (b : JS.number) : JS.numeric (credit b) = true.
Proof.
  unfold credit, JS.or_zero.
  destruct (JS.falsy_number b) eqn:Hf; [apply round_numeric|].
  destruct b; try discriminate Hf; try reflexivity; apply round_numeric.
Qed.

Lemma credit_falsy (b : JS.number) :
  JS.falsy_number b = true -> credit b = JS.Num 1000.
Proof.
  intros Hf. unfold credit. now rewrite (or_zero_falsy b Hf).
Qed.

(** While the sum stays below [2^53] the addition is exact. *)
Lemma credit_exact (n : Z) :
  (Z.abs (n + 1000) < 2 ^ 53)%Z -> credit (JS.Num n) = JS.Num (n + 1000).
Proof.
  intros Hn. unfold credit, commission. rewrite or_zero_num.
  now apply round_exact.
Qed.

(** The addition of doubles on the machine and [JS.plus] agree on the
    sample doubles. *)
Example plus_matches_binary64 :
  forallb (Binary64.plus_agrees 1000) Binary64.samples = true.
Proof. vm_compute. reflexivity. Qed.

(** Past [2^53] the credited balance is the nearest double, not the
    exact sum: adding 1000 to [2^60] gives [2^60 + 1024]. *)
Example credit_rounds_past_2_53 :
  credit (JS.Num (2 ^ 60)) = JS.Num (2 ^ 60 + 1024)
  /\ credit (JS.Num (2 ^ 53 - 1000)) = JS.Num (2 ^ 53)
  /\ credit (JS.Num (2 ^ 53)) = JS.Num (2 ^ 53 + 1000)
  /\ credit (JS.Num (2 ^ 53 + 2)) = JS.Num (2 ^ 53 + 1002)
  /\ credit (JS.Num (2 ^ 56)) = JS.Num (2 ^ 56 + 992).
Proof. repeat split. Qed.

(** The values that are no integers: a half, the infinities, NaN. *)
Example credit_other_numbers :
  credit (JS.Frac 1 1) = JS.Frac 2001 1
  /\ credit (JS.Frac (-2001) 1) = JS.Frac (-1) 1
  /\ credit (JS.Inf false) = JS.Inf false
  /\ credit (JS.Inf true) = JS.Inf true
  /\ credit JS.NaN = JS.Num 1000
  /\ credit JS.Undefined = JS.Num 1000
  /\ credit (JS.Num (-1000)) = JS.Num 0.
Proof. repeat split. Qed.

Lemma set_balance_ids (i : nat) (b : JS.number) (s : store) :
  map _id (Db.set_balance i b s) = map _id s.
Proof.
  induction s as [|u rest IH]; simpl; [reflexivity|].
  destruct (Db.by_id i u); simpl; [reflexivity | now rewrite IH].
Qed.

Lemma with_balance_email (u : User) (b : JS.number) :
  email (with_balance u b) = email u.
Proof. reflexivity. Qed.

Lemma set_balance_email_free (x : string) (i : nat) (b : JS.number) (s : store) :
  Db.findOne (Db.by_email x) s = None ->
  Db.findOne (Db.by_email x) (Db.set_balance i b s) = None.
Proof.
  induction s as [|u rest IH]; simpl; [reflexivity|].
  destruct (Db.by_email x u) eqn:He; [discriminate|]. intros Hrest.
  destruct (Db.by_id i u); simpl.
  - unfold Db.by_email in *. rewrite with_balance_email, He. exact Hrest.
  - rewrite He. now apply IH.
Qed.

Lemma set_balance_found (i : nat) (b : JS.number) (s : store) (u : User) :
  Db.findOne (Db.by_id i) s = Some u ->
  Db.findOne (Db.by_id i) (Db.set_balance i b s) = Some (with_balance u b).
Proof.
  induction s as [|v rest IH]; simpl; [discriminate|].
  destruct (Db.by_id i v) eqn:Hid; simpl.
  - intros [= ->]. unfold Db.by_id in *. simpl. now rewrite Hid.
  - rewrite Hid. exact IH.
Qed.

Lemma set_balance_other (i j : nat) (b : JS.number) (s : store) :
  i <> j ->
  Db.findOne (Db.by_id j) (Db.set_balance i b s) = Db.findOne (Db.by_id j) s.
Proof.
  intros Hij. induction s as [|v rest IH]; simpl; [reflexivity|].
  destruct (Db.by_id i v) eqn:Hid; simpl.
  - unfold Db.by_id in *. simpl.
    apply Nat.eqb_eq in Hid.
    destruct (Nat.eqb_spec (_id v) j); [congruence | reflexivity].
  - destruct (Db.by_id j v); [reflexivity | exact IH].
Qed.

Lemma wf_first_by_id (s : store) (u : User) :
  Db.wf s -> In u s -> Db.findOne (Db.by_id (_id u)) s = Some u.
Proof.
  unfold Db.wf. induction s as [|v rest IH]; simpl; [tauto|].
  intros Hnd [->|Hin].
  - unfold Db.by_id. now rewrite Nat.eqb_refl.
  - inversion Hnd as [|? ? Hfresh Hrest]; subst.
    unfold Db.by_id at 1.
    destruct (Nat.eqb_spec (_id v) (_id u)) as [E|_].
    + exfalso. apply Hfresh. rewrite E. now apply in_map.
    + now apply IH.
Qed.

Lemma findOne_in (p : User -> bool) (s : store) (u : User) :
  Db.findOne p s = Some u -> In u s /\ p u = true.
Proof.
  apply find_some.
Qed.

Lemma findOne_app (p : User -> bool) (s t : store) (u : User) :
  Db.findOne p s = Some u -> Db.findOne p (s ++ t) = Some u.
Proof.
  induction s as [|v rest IH]; simpl; [discriminate|].
  destruct (p v); [trivial | exact IH].
Qed.

Lemma fresh_id_above (s : store) (u : User) :
  In u s -> (_id u < Db.fresh_id s)%nat.
Proof.
  unfold Db.fresh_id. induction s as [|v rest IH]; simpl; [tauto|].
  intros [->|Hin]; [lia|]. specialize (IH Hin). lia.
Qed.

Lemma fresh_id_wf (s : store) :
  Db.wf s -> NoDup (map _id s ++ [Db.fresh_id s]).
Proof.
  unfold Db.wf. intros Hwf.
  apply NoDup_app; [exact Hwf | repeat constructor; simpl; tauto |].
  intros x Hx [<-|[]].
  apply in_map_iff in Hx as (v & Hv & Hin).
  apply fresh_id_above in Hin. lia.
Qed.

(* ------------------------------------------------------------------ *)
(** ** Registration *)

(** The sponsor block never answers the request itself, and what it
    does to the collection is decided by the code and two calls. *)
Lemma credit_sponsor_skipped (e : env) (r : register_request) (s : store) :
  JS.truthy (reg_referralCode r) = false ->
  credit_sponsor e r s = (Value tt, s).
Proof.
  intros H. unfold credit_sponsor. now rewrite H.
Qed.

Lemma credit_sponsor_lookup_throws (e : env) (r : register_request) (s : store) :
  JS.truthy (reg_referralCode r) = true ->
  fails e FindByReferral = true ->
  credit_sponsor e r s = (Thrown, s).
Proof.
  intros H F. unfold credit_sponsor, bind, query. now rewrite H, F.
Qed.

Lemma credit_sponsor_unknown (e : env) (r : register_request) (s : store) :
  JS.truthy (reg_referralCode r) = true ->
  fails e FindByReferral = false ->
  Db.findOne (Db.by_referral (JS.text (reg_referralCode r))) s = None ->
  credit_sponsor e r s = (Value tt, s).
Proof.
  intros H F N. unfold credit_sponsor, bind, query. now rewrite H, F, N.
Qed.

Lemma credit_sponsor_known (e : env) (r : register_request) (s : store)
      (sponsor : User) :
  JS.truthy (reg_referralCode r) = true ->
  fails e FindByReferral = false ->
  Db.findOne (Db.by_referral (JS.text (reg_referralCode r))) s = Some sponsor ->
  credit_sponsor e r s
  = if fails e SaveSponsor then (Thrown, s)
    else (Value tt,
          Db.set_balance (_id sponsor) (credit (balance sponsor)) s).
Proof.
  intros H F N. unfold credit_sponsor, bind, query, save_sponsor.
  rewrite H, F, N. reflexivity.
Qed.

Section Registration.

Variables (e : env) (r : register_request) (s : store).

(** The request passes validation and the uniqueness check, and the
    password gets hashed. *)
Hypothesis email_given : JS.truthy (reg_email r) = true.
Hypothesis password_given : JS.truthy (reg_password r) = true.
Hypothesis email_lookup : fails e FindByEmail = false.
Hypothesis email_unused :
  Db.findOne (Db.by_email (JS.text (reg_email r))) s = None.
Hypothesis hashed : fails e Hash = false.

Lemma register_checked :
  register e r s = try_catch (persist_and_answer e r s) s.
Proof using email_given password_given email_lookup email_unused hashed.
  unfold register, try_catch, register_body.
  rewrite email_given, password_given. simpl.
  unfold bind at 1. unfold query at 1. rewrite email_lookup, email_unused.
  unfold bind at 1. unfold compute at 1. rewrite hashed.
  unfold bind at 1. reflexivity.
Qed.

(** After the sponsor block left the collection at [s1], the handler
    inserts the new document and answers, or throws. *)
Lemma insert_and_answer_run (s1 : store) :
  Db.findOne (Db.by_email (JS.text (reg_email r))) s1 = None ->
  insert_and_answer e r s s1
  = if fails e SaveUser then (Thrown, s1)
    else if fails e Sign then (Thrown, s1 ++ [candidate e r s])
    else (Returned
            (registered
               (jwt_sign e (mkClaims (Db.fresh_id s)
                                     (JS.text (reg_email r))))
               (genReferral (random36 e))),
          s1 ++ [candidate e r s]).
Proof.
  intros Hfree.
  unfold insert_and_answer, bind, save_user, compute, respond, Db.insert.
  destruct (fails e SaveUser); [reflexivity|].
  change (email (candidate e r s)) with (JS.text (reg_email r)).
  rewrite Hfree.
  destruct (fails e Sign); reflexivity.
Qed.

Lemma ending_store (s1 : store) :
  snd (ending e r s s1) = s1 \/ snd (ending e r s s1) = s1 ++ [candidate e r s].
Proof.
  unfold ending. destruct (fails e SaveUser); [now left|].
  destruct (fails e Sign); now right.
Qed.

Lemma register_without_sponsor :
  JS.truthy (reg_referralCode r) = false
  \/ (fails e FindByReferral = false
      /\ Db.findOne (Db.by_referral (JS.text (reg_referralCode r))) s = None) ->
  register e r s = ending e r s s.
Proof using email_given password_given email_lookup email_unused hashed.
  intros Hcode. rewrite register_checked.
  unfold try_catch, persist_and_answer, bind.
  assert (credit_sponsor e r s = (Value tt, s)) as ->.
  { destruct Hcode as [Hno|[Hq Hnone]].
    - now apply credit_sponsor_skipped.
    - destruct (JS.truthy (reg_referralCode r)) eqn:Ht.
      + now apply credit_sponsor_unknown.
      + now apply credit_sponsor_skipped. }
  rewrite (insert_and_answer_run s email_unused). unfold ending.
  destruct (fails e SaveUser); [reflexivity|].
  destruct (fails e Sign); reflexivity.
Qed.

Variable sponsor : User.

Hypothesis code_given : JS.truthy (reg_referralCode r) = true.
Hypothesis code_lookup : fails e FindByReferral = false.
Hypothesis code_known :
  Db.findOne (Db.by_referral (JS.text (reg_referralCode r))) s = Some sponsor.

Lemma register_with_sponsor_saved :
  fails e SaveSponsor = false ->
  register e r s = ending e r s (credited sponsor s).
Proof using email_given password_given email_lookup email_unused hashed
            code_given code_lookup code_known.
  intros Hsave. rewrite register_checked.
  unfold try_catch, persist_and_answer, bind.
  rewrite credit_sponsor_known with (sponsor := sponsor) by assumption.
  rewrite Hsave.
  rewrite insert_and_answer_run
    by (now apply set_balance_email_free).
  unfold ending.
  destruct (fails e SaveUser); [reflexivity|].
  destruct (fails e Sign); reflexivity.
Qed.

Lemma register_with_sponsor_unsaved :
  fails e SaveSponsor = true ->
  register e r s = (error 500 "Server error", s).
Proof using email_given password_given email_lookup email_unused hashed
            code_given code_lookup code_known.
  intros Hsave. rewrite register_checked.
  unfold try_catch, persist_and_answer, bind.
  rewrite credit_sponsor_known with (sponsor := sponsor) by assumption.
  now rewrite Hsave.
Qed.

Hypothesis ids_unique : Db.wf s.

Lemma sponsor_in_credited (tail : store) :
  Db.findOne (Db.by_id (_id sponsor)) (credited sponsor s ++ tail)
  = Some (with_balance sponsor (credit (balance sponsor))).
Proof using code_known ids_unique.
  apply findOne_app, set_balance_found, wf_first_by_id; [exact ids_unique|].
  now apply findOne_in in code_known.
Qed.

Lemma sponsor_after_ending :
  Db.findOne (Db.by_id (_id sponsor)) (snd (ending e r s (credited sponsor s)))
  = Some (with_balance sponsor (credit (balance sponsor))).
Proof using code_known ids_unique.
  destruct (ending_store (credited sponsor s)) as [-> | ->].
  - rewrite <- (app_nil_r (credited sponsor s)). apply sponsor_in_credited.
  - apply sponsor_in_credited.
Qed.

Lemma others_after_ending (j : nat) (u : User) :
  j <> _id sponsor ->
  Db.findOne (Db.by_id j) s = Some u ->
  Db.findOne (Db.by_id j) (snd (ending e r s (credited sponsor s))) = Some u.
Proof.
  intros Hj Hu.
  assert (Db.findOne (Db.by_id j) (credited sponsor s) = Some u) as Hc.
  { unfold credited. rewrite set_balance_other by congruence. exact Hu. }
  destruct (ending_store (credited sponsor s)) as [-> | ->];
    [exact Hc | now apply findOne_app].
Qed.

End Registration.

(** The sponsor as stored once the sponsor block has saved it: the
    document found, with the credited balance in its [balance] field. *)
Lemma stored_sponsor (e : env) (r : register_request) (s : store)
      (sponsor : User) :
  Db.wf s ->
  Db.findOne (Db.by_referral (JS.text (reg_referralCode r))) s = Some sponsor ->
  exists stored : User,
    Db.findOne (Db.by_id (_id sponsor))
               (snd (ending e r s (credited sponsor s)))
    = Some stored
    /\ same_but_balance sponsor stored
    /\ balance stored = credit (balance sponsor).
Proof.
  intros Hwf Hk. exists (with_balance sponsor (credit (balance sponsor))).
  split; [now apply sponsor_after_ending|]. split; reflexivity.
Qed.

(** C1.  A registration that passes validation and the uniqueness check
    (and whose password gets hashed), on a collection with unique ids:
    - when the request names a referral code, the lookup answers with
      the account [sponsor] holding it and [sponsor.save()] goes
      through, the account stored under the sponsor's id afterwards is
      the sponsor's document with the balance [(balance || 0) + 1000],
      the sum of doubles of line 73: this is [n + 1000] exactly for a
      numeric balance [n] while the sum stays below [2^53] in magnitude,
      and 1000 when the balance was falsy; every other account is
      stored as before;
    - when no code is given, or the code is held by no account, and the
      new document is saved and the token signed, the registration
      answers with success and the collection is the old one followed
      by the new document: no stored balance has changed. *)
Theorem register_sponsor_credit (e : env) (r : register_request) (s : store) :
  JS.truthy (reg_email r) = true ->
  JS.truthy (reg_password r) = true ->
  fails e FindByEmail = false ->
  Db.findOne (Db.by_email (JS.text (reg_email r))) s = None ->
  fails e Hash = false ->
  Db.wf s ->
  (forall sponsor : User,
      JS.truthy (reg_referralCode r) = true ->
      fails e FindByReferral = false ->
      Db.findOne (Db.by_referral (JS.text (reg_referralCode r))) s
      = Some sponsor ->
      fails e SaveSponsor = false ->
      exists stored : User,
        Db.findOne (Db.by_id (_id sponsor)) (snd (register e r s))
        = Some stored
        /\ same_but_balance sponsor stored
        /\ balance stored = JS.plus (JS.or_zero (balance sponsor)) 1000
        /\ (forall n : Z,
               balance sponsor = JS.Num n ->
               (Z.abs (n + 1000) < 2 ^ 53)%Z ->
               balance stored = JS.Num (n + 1000))
        /\ (JS.falsy_number (balance sponsor) = true ->
            balance stored = JS.Num 1000)
        /\ (forall (j : nat) (u : User),
               j <> _id sponsor ->
               Db.findOne (Db.by_id j) s = Some u ->
               Db.findOne (Db.by_id j) (snd (register e r s)) = Some u))
  /\ (JS.truthy (reg_referralCode r) = false
      \/ (fails e FindByReferral = false
          /\ Db.findOne (Db.by_referral (JS.text (reg_referralCode r))) s
             = None) ->
      fails e SaveUser = false ->
      fails e Sign = false ->
      register e r s
      = (registered (jwt_sign e (mkClaims (Db.fresh_id s)
                                          (JS.text (reg_email r))))
                    (genReferral (random36 e)),
         s ++ [candidate e r s])).
Proof.
  intros He Hp Hl Hu Hh Hwf. split.
  - intros sponsor Hc Hq Hk Hs.
    rewrite (register_with_sponsor_saved e r s He Hp Hl Hu Hh sponsor Hc Hq Hk Hs).
    destruct (stored_sponsor e r s sponsor Hwf Hk)
      as (stored & Hfound & Hsame & Hbal).
    exists stored. split; [exact Hfound|]. split; [exact Hsame|].
    split; [exact Hbal|]. split; [|split].
    + intros n Hn Hbound. rewrite Hbal, Hn. now apply credit_exact.
    + intros Hf. rewrite Hbal. now apply credit_falsy.
    + intros j u Hj Hfound'. now apply others_after_ending.
  - intros Hcode Hsave Hsign.
    rewrite (register_without_sponsor e r s He Hp Hl Hu Hh Hcode).
    unfold ending. now rewrite Hsave, Hsign.
Qed.

(** C2.  In a registration that passes the checks and finds the sponsor
    of its code: if [sponsor.save()] goes through and [u.save()] throws,
    the answer is the 500 "Server error" and the collection is the old
    one with the commission written to the sponsor: the account stored
    under the sponsor's id is the sponsor's document with the balance
    [(balance || 0) + 1000] (exactly [n + 1000] while that stays below
    [2^53]), every other account is as before, and no account has the
    new email.  If [sponsor.save()] itself throws, nothing at all is
    written, the new account included; and when both go through the new
    document is appended behind the collection in which the sponsor is
    already credited. *)
Theorem register_sponsor_then_user (e : env) (r : register_request)
        (s : store) (sponsor : User) :
  JS.truthy (reg_email r) = true ->
  JS.truthy (reg_password r) = true ->
  fails e FindByEmail = false ->
  Db.findOne (Db.by_email (JS.text (reg_email r))) s = None ->
  fails e Hash = false ->
  Db.wf s ->
  JS.truthy (reg_referralCode r) = true ->
  fails e FindByReferral = false ->
  Db.findOne (Db.by_referral (JS.text (reg_referralCode r))) s = Some sponsor ->
  (fails e SaveSponsor = false ->
   fails e SaveUser = true ->
   fst (register e r s) = error 500 "Server error"
   /\ (exists stored : User,
          Db.findOne (Db.by_id (_id sponsor)) (snd (register e r s))
          = Some stored
          /\ same_but_balance sponsor stored
          /\ balance stored = JS.plus (JS.or_zero (balance sponsor)) 1000
          /\ (forall n : Z,
                 balance sponsor = JS.Num n ->
                 (Z.abs (n + 1000) < 2 ^ 53)%Z ->
                 balance stored = JS.Num (n + 1000)))
   /\ (forall (j : nat) (u : User),
          j <> _id sponsor ->
          Db.findOne (Db.by_id j) s = Some u ->
          Db.findOne (Db.by_id j) (snd (register e r s)) = Some u)
   /\ map _id (snd (register e r s)) = map _id s
   /\ Db.findOne (Db.by_email (JS.text (reg_email r))) (snd (register e r s))
      = None)
  /\ (fails e SaveSponsor = true ->
      register e r s = (error 500 "Server error", s))
  /\ (fails e SaveSponsor = false ->
      fails e SaveUser = false ->
      exists s1 : store,
        snd (register e r s) = s1 ++ [candidate e r s]
        /\ map _id s1 = map _id s
        /\ option_map balance (Db.findOne (Db.by_id (_id sponsor)) s1)
           = Some (JS.plus (JS.or_zero (balance sponsor)) 1000)).
Proof.
  intros He Hp Hl Hu Hh Hwf Hc Hq Hk. split; [|split].
  - intros Hs Hsu.
    rewrite (register_with_sponsor_saved e r s He Hp Hl Hu Hh sponsor Hc Hq Hk Hs).
    destruct (stored_sponsor e r s sponsor Hwf Hk)
      as (stored & Hfound & Hsame & Hbal).
    split; [unfold ending; now rewrite Hsu|].
    split; [|split; [|split]].
    + exists stored. split; [exact Hfound|]. split; [exact Hsame|].
      split; [exact Hbal|].
      intros n Hn Hbound. rewrite Hbal, Hn. now apply credit_exact.
    + intros j u Hj Hfound'. now apply others_after_ending.
    + unfold ending. rewrite Hsu. apply set_balance_ids.
    + unfold ending. rewrite Hsu. simpl.
      now apply set_balance_email_free.
  - intros Hs.
    exact (register_with_sponsor_unsaved e r s He Hp Hl Hu Hh sponsor Hc Hq Hk Hs).
  - intros Hs Hsu.
    rewrite (register_with_sponsor_saved e r s He Hp Hl Hu Hh sponsor Hc Hq Hk Hs).
    exists (credited sponsor s).
    split; [unfold ending; rewrite Hsu; now destruct (fails e Sign)|].
    split; [apply set_balance_ids|].
    unfold credited.
    rewrite (set_balance_found _ _ s sponsor);
      [reflexivity|].
    apply wf_first_by_id; [exact Hwf | now apply findOne_in in Hk].
Qed.

(** C9.  Whatever the matched sponsor's stored balance is (absent,
    null, NaN or any number), the balance persisted by the crediting is
    [(balance || 0) + 1000] and is a number, never absent, null or NaN:
    it is 1000 for every falsy previous balance, and [n + 1000] for a
    numeric balance [n] while the sum stays below [2^53] in magnitude
    (beyond that it is the double nearest to the sum). *)
Theorem sponsor_credit_total (e : env) (r : register_request)
        (s : store) (sponsor : User) :
  JS.truthy (reg_email r) = true ->
  JS.truthy (reg_password r) = true ->
  fails e FindByEmail = false ->
  Db.findOne (Db.by_email (JS.text (reg_email r))) s = None ->
  fails e Hash = false ->
  Db.wf s ->
  JS.truthy (reg_referralCode r) = true ->
  fails e FindByReferral = false ->
  Db.findOne (Db.by_referral (JS.text (reg_referralCode r))) s = Some sponsor ->
  fails e SaveSponsor = false ->
  exists b : JS.number,
    option_map balance
               (Db.findOne (Db.by_id (_id sponsor)) (snd (register e r s)))
    = Some b
    /\ b = JS.plus (JS.or_zero (balance sponsor)) 1000
    /\ JS.numeric b = true
    /\ (JS.falsy_number (balance sponsor) = true -> b = JS.Num 1000)
    /\ (forall n : Z,
           balance sponsor = JS.Num n ->
           (Z.abs (n + 1000) < 2 ^ 53)%Z ->
           b = JS.Num (n + 1000)).
Proof.
  intros He Hp Hl Hu Hh Hwf Hc Hq Hk Hs.
  exists (credit (balance sponsor)).
  rewrite (register_with_sponsor_saved e r s He Hp Hl Hu Hh sponsor Hc Hq Hk Hs).
  rewrite (sponsor_after_ending e r s sponsor Hk Hwf).
  split; [reflexivity|]. split; [reflexivity|].
  split; [apply credit_numeric|]. split.
  - apply credit_falsy.
  - intros n -> Hbound. now apply credit_exact.
Qed.

(** Instances of the three registration theorems on the sample data. *)
Lemma register_sponsor_credit_witness :
  exists stored : User,
    Db.findOne (Db.by_id 1)
      (snd (register Sample.quiet
                     (Sample.join "b@x.com" "pw2" (Some "GGR1R1R1"))
                     Sample.accounts))
    = Some stored
    /\ balance stored = JS.Num (0 + 1000).
Proof.
  assert (Db.wf Sample.accounts) as Hwf.
  { unfold Db.wf. simpl. repeat constructor; simpl; intuition discriminate. }
  destruct (proj1
    (register_sponsor_credit Sample.quiet
       (Sample.join "b@x.com" "pw2" (Some "GGR1R1R1")) Sample.accounts
       eq_refl eq_refl eq_refl eq_refl eq_refl Hwf)
    Sample.alice eq_refl eq_refl eq_refl eq_refl)
    as (stored & Hfound & _ & _ & Hexact & _).
  exists stored. split; [exact Hfound|].
  exact (Hexact 0%Z eq_refl eq_refl).
Defined.

Lemma register_sponsor_then_user_witness :
  fst (register Sample.save_user_down
                (Sample.join "b@x.com" "pw2" (Some "GGC3C3C3"))
                Sample.accounts)
  = error 500 "Server error"
  /\ exists stored : User,
       Db.findOne (Db.by_id 2)
         (snd (register Sample.save_user_down
                        (Sample.join "b@x.com" "pw2" (Some "GGC3C3C3"))
                        Sample.accounts))
       = Some stored
       /\ balance stored = JS.plus (JS.or_zero JS.Null) 1000.
Proof.
  assert (Db.wf Sample.accounts) as Hwf.
  { unfold Db.wf. simpl. repeat constructor; simpl; intuition discriminate. }
  destruct (proj1
    (register_sponsor_then_user Sample.save_user_down
       (Sample.join "b@x.com" "pw2" (Some "GGC3C3C3")) Sample.accounts
       Sample.carol
       eq_refl eq_refl eq_refl eq_refl eq_refl Hwf eq_refl eq_refl eq_refl)
    eq_refl eq_refl)
    as (Hanswer & (stored & Hfound & _ & Hbal & _) & _).
  split; [exact Hanswer|].
  exists stored. split; [exact Hfound | exact Hbal].
Defined.

Lemma sponsor_credit_total_witness :
  exists b : JS.number,
    option_map balance
      (Db.findOne (Db.by_id 2)
         (snd (register Sample.quiet
                        (Sample.join "b@x.com" "pw2" (Some "GGC3C3C3"))
                        Sample.accounts)))
    = Some b
    /\ b = JS.Num 1000.
Proof.
  assert (Db.wf Sample.accounts) as Hwf.
  { unfold Db.wf. simpl. repeat constructor; simpl; intuition discriminate. }
  destruct (sponsor_credit_total Sample.quiet
              (Sample.join "b@x.com" "pw2" (Some "GGC3C3C3")) Sample.accounts
              Sample.carol
              eq_refl eq_refl eq_refl eq_refl eq_refl Hwf
              eq_refl eq_refl eq_refl eq_refl)
    as (b & Hfound & _ & _ & Hfalsy & _).
  exists b. split; [exact Hfound | exact (Hfalsy eq_refl)].
Defined.

(* ------------------------------------------------------------------ *)
(** ** Referral-code format *)

Lemma upper_char_alnum (c : ascii) :
  is_radix36_digit c = true -> is_upper_alnum (JS.upper_char c) = true.
Proof.
  destruct c as [b0 b1 b2 b3 b4 b5 b6 b7].
  destruct b0, b1, b2, b3, b4, b5, b6, b7;
    intros H; try reflexivity; discriminate H.
Qed.

Lemma toUpperCase_alnum (s : string) :
  all_chars is_radix36_digit s = true ->
  all_chars is_upper_alnum (JS.toUpperCase s) = true.
Proof.
  induction s as [|c rest IH]; simpl; [reflexivity|].
  intros H. apply andb_true_iff in H as [Hc Hrest].
  now rewrite upper_char_alnum, IH.
Qed.

Lemma toUpperCase_length (s : string) :
  String.length (JS.toUpperCase s) = String.length s.
Proof.
  induction s as [|c rest IH]; simpl; congruence.
Qed.

Lemma prefix_all_chars (p : ascii -> bool) (m : nat) (s : string) :
  all_chars p s = true -> all_chars p (String.substring 0 m s) = true.
Proof.
  revert s. induction m as [|m IH]; intros [|c rest]; simpl; trivial.
  intros H. apply andb_true_iff in H as [Hc Hrest].
  now rewrite Hc, IH.
Qed.

Lemma prefix_length (m : nat) (s : string) :
  String.length (String.substring 0 m s) = Nat.min m (String.length s).
Proof.
  revert s. induction m as [|m IH]; intros [|c rest]; simpl; trivial.
  now rewrite IH.
Qed.

(** What [genReferral] does give: the prefix and at most six upper-case
    alphanumeric characters, as many as the draw has radix-36 digits. *)
Lemma genReferral_shape (digits : string) :
  all_chars is_radix36_digit digits = true ->
  exists tail : string,
    genReferral (String "0" (String "." digits)) = String "G" (String "G" tail)
    /\ String.length tail = Nat.min 6 (String.length digits)
    /\ all_chars is_upper_alnum tail = true.
Proof.
  intros H. exists (JS.toUpperCase (String.substring 0 6 digits)).
  split; [reflexivity|]. split.
  - now rewrite toUpperCase_length, prefix_length.
  - now apply toUpperCase_alnum, prefix_all_chars.
Qed.

Lemma genReferral_six_digits (digits : string) :
  all_chars is_radix36_digit digits = true ->
  (6 <= String.length digits)%nat ->
  referral_format (genReferral (String "0" (String "." digits))) = true.
Proof.
  intros H Hlen. destruct (genReferral_shape digits H) as (tail & -> & Hl & Ha).
  simpl. rewrite Ha, Hl, Nat.min_l by exact Hlen. reflexivity.
Qed.

(** C3.  A registration that succeeds with a referral code outside the
    format: when [Math.random()] draws 0.5, which prints as ["0.i"] in
    radix 36, [substring(2,8)] finds one character and the account is
    created with, and told, the code ["GGI"]. *)
Theorem register_short_referral :
  is_random36 (random36 Sample.half) = true
  /\ register Sample.half (Sample.join "a@x.com" "pw1" None) []
     = (registered "jwt.a@x.com" "GGI",
        [mkUser 1 "a@x.com" "$2b$10$pw1" None None None None None
                "GGI" None (JS.Num 0) 0%Z 1700000000000%Z])
  /\ referral_format "GGI" = false.
Proof.
  repeat split.
Qed.

(* ------------------------------------------------------------------ *)
(** ** Login *)

Lemma login_unknown_email (e : env) (r : login_request) (s : store) :
  JS.truthy (login_email r) = true ->
  JS.truthy (login_password r) = true ->
  fails e FindByEmail = false ->
  Db.findOne (Db.by_email (JS.text (login_email r))) s = None ->
  login e r s = (error 400 "Invalid credentials", s).
Proof.
  intros He Hp Hl Hn. unfold login, try_catch, login_body.
  rewrite He, Hp. simpl. unfold bind, query.
  now rewrite Hl, Hn.
Qed.

Lemma login_wrong_password (e : env) (r : login_request) (s : store)
      (account : User) :
  JS.truthy (login_email r) = true ->
  JS.truthy (login_password r) = true ->
  fails e FindByEmail = false ->
  Db.findOne (Db.by_email (JS.text (login_email r))) s = Some account ->
  fails e Compare = false ->
  bcrypt_compare e (JS.text (login_password r)) (passwordHash account) = false ->
  login e r s = (error 400 "Invalid credentials", s).
Proof.
  intros He Hp Hl Hn Hc Hm.
  unfold login, try_catch, login_body.
  rewrite He, Hp. simpl. unfold bind, query, compute.
  now rewrite Hl, Hn, Hc, Hm.
Qed.

(** C4.  Two login requests with both fields given, one for an email
    that no account has, one for the email of an account whose hash the
    password does not match: both are answered with status 400 and
    [{error: "Invalid credentials"}], the same response, and neither
    changes the collection. *)
Theorem login_errors_identical (e1 e2 : env) (r1 r2 : login_request)
        (s1 s2 : store) (account : User) :
  JS.truthy (login_email r1) = true ->
  JS.truthy (login_password r1) = true ->
  fails e1 FindByEmail = false ->
  Db.findOne (Db.by_email (JS.text (login_email r1))) s1 = None ->
  JS.truthy (login_email r2) = true ->
  JS.truthy (login_password r2) = true ->
  fails e2 FindByEmail = false ->
  Db.findOne (Db.by_email (JS.text (login_email r2))) s2 = Some account ->
  fails e2 Compare = false ->
  bcrypt_compare e2 (JS.text (login_password r2)) (passwordHash account)
  = false ->
  fst (login e1 r1 s1) = fst (login e2 r2 s2)
  /\ login e1 r1 s1 = (error 400 "Invalid credentials", s1)
  /\ login e2 r2 s2 = (error 400 "Invalid credentials", s2).
Proof.
  intros He1 Hp1 Hl1 Hn1 He2 Hp2 Hl2 Hn2 Hc2 Hm2.
  rewrite (login_unknown_email e1 r1 s1 He1 Hp1 Hl1 Hn1).
  rewrite (login_wrong_password e2 r2 s2 account He2 Hp2 Hl2 Hn2 Hc2 Hm2).
  repeat split.
Qed.

Lemma login_errors_identical_witness :
  fst (login Sample.quiet (mkLogin (Some "z@x.com") (Some "pw1"))
             Sample.accounts)
  = fst (login Sample.quiet (mkLogin (Some "a@x.com") (Some "oops"))
               Sample.accounts).
Proof.
  exact (proj1
    (login_errors_identical Sample.quiet Sample.quiet
       (mkLogin (Some "z@x.com") (Some "pw1"))
       (mkLogin (Some "a@x.com") (Some "oops"))
       Sample.accounts Sample.accounts Sample.alice
       eq_refl eq_refl eq_refl eq_refl eq_refl
       eq_refl eq_refl eq_refl eq_refl eq_refl)).
Defined.

(* ------------------------------------------------------------------ *)
(** ** Registration with a taken email *)

Lemma register_taken_store (e : env) (r : register_request) (s : store)
      (account : User) :
  Db.findOne (Db.by_email (JS.text (reg_email r))) s = Some account ->
  snd (register e r s) = s.
Proof.
  intros Hfound. unfold register, try_catch, register_body.
  destruct (negb (JS.truthy (reg_email r)) || negb (JS.truthy (reg_password r)));
    [reflexivity|].
  unfold bind at 1. unfold query.
  destruct (fails e FindByEmail); [reflexivity|].
  now rewrite Hfound.
Qed.

(** C5, as stated, fails: a request that repeats the email of an
    account but carries no password is turned away by the validation
    that runs first, with "Email and password required", even when
    nothing throws. *)
Lemma register_duplicate_without_password :
  ~ (forall (e : env) (r : register_request) (s : store) (account : User),
        (forall c : call, fails e c = false) ->
        In account s ->
        reg_email r = Some (email account) ->
        register e r s = (error 400 "Email already registered", s)).
Proof.
  intros claim.
  specialize (claim Sample.quiet
                    (mkRegister (Some "a@x.com") None None None None None
                                None None)
                    Sample.accounts Sample.alice
                    (fun _ => eq_refl) (or_introl eq_refl) eq_refl).
  discriminate claim.
Qed.

(** C5, amended.  A registration whose email is that of a stored account
    leaves the collection exactly as it was, whatever else the request
    holds and whatever throws; and when the request passes validation
    (email and password both non-empty) and the lookup answers, the
    response is status 400 with "Email already registered". *)
Theorem register_duplicate_email (e : env) (r : register_request)
        (s : store) (account : User) :
  Db.findOne (Db.by_email (JS.text (reg_email r))) s = Some account ->
  snd (register e r s) = s
  /\ (JS.truthy (reg_email r) = true ->
      JS.truthy (reg_password r) = true ->
      fails e FindByEmail = false ->
      register e r s = (error 400 "Email already registered", s)).
Proof.
  intros Hfound. split; [now apply register_taken_store with account|].
  intros He Hp Hl. unfold register, try_catch, register_body.
  rewrite He, Hp. simpl. unfold bind, query.
  now rewrite Hl, Hfound.
Qed.

Lemma register_duplicate_email_witness :
  register Sample.quiet (Sample.join "a@x.com" "other" (Some "GGC3C3C3"))
           Sample.accounts
  = (error 400 "Email already registered", Sample.accounts).
Proof.
  exact (proj2
    (register_duplicate_email Sample.quiet
       (Sample.join "a@x.com" "other" (Some "GGC3C3C3"))
       Sample.accounts Sample.alice eq_refl)
    eq_refl eq_refl eq_refl).
Defined.

(* ------------------------------------------------------------------ *)
(** ** The session guard *)

Lemma header_with_token (header t : string) :
  token_of header = Some t -> JS.truthy (Some header) = true.
Proof.
  destruct header; [discriminate | reflexivity].
Qed.

Lemma nonempty_truthy (header : string) :
  header <> EmptyString -> JS.truthy (Some header) = true.
Proof.
  destruct header; [congruence | reflexivity].
Qed.

(** [auth] on a header the guard takes as present. *)
Lemma auth_present (e : env) (req : request) (header : string) :
  authorization req = Some header ->
  JS.truthy (Some header) = true ->
  auth e req
  = match verify e (token_of header) with
    | Some data => Next (mkRequest (Some header) (Some data))
    | None => Rejected (error 401 "Invalid token")
    end.
Proof.
  intros Hh Ht. unfold auth. rewrite Hh, Ht. reflexivity.
Qed.

(** C6.  For every request and every handler [h] behind the guard:
    without an authorization header the answer is 401 "No token"; with a
    header whose token [jwt.verify] refuses (bad signature, expired) it
    is 401 "Invalid token"; in both cases [h] does not run and the
    collection is untouched.  With a header whose token verifies, the
    decoded claims are assigned to [req.user] and [h] runs on that
    request. *)
Theorem auth_guard (e : env) (req : request)
        (h : request -> store -> response * store) (s : store) :
  (authorization req = None ->
   auth e req = Rejected (error 401 "No token")
   /\ guarded e h req s = (error 401 "No token", s))
  /\ (forall header t : string,
         authorization req = Some header ->
         token_of header = Some t ->
         jwt_verify e t = None ->
         auth e req = Rejected (error 401 "Invalid token")
         /\ guarded e h req s = (error 401 "Invalid token", s))
  /\ (forall (header t : string) (data : claims),
         authorization req = Some header ->
         token_of header = Some t ->
         jwt_verify e t = Some data ->
         auth e req = Next (mkRequest (authorization req) (Some data))
         /\ user (mkRequest (authorization req) (Some data))
            = Some (mkClaims (id data) (claim_email data))
         /\ guarded e h req s
            = h (mkRequest (authorization req) (Some data)) s).
Proof.
  split; [|split].
  - intros Hnone. unfold guarded, auth. rewrite Hnone. now split.
  - intros header t Hh Ht Hv. unfold guarded.
    rewrite (auth_present e req header Hh (header_with_token header t Ht)).
    rewrite Ht. simpl. rewrite Hv. now split.
  - intros header t data Hh Ht Hv. unfold guarded.
    rewrite (auth_present e req header Hh (header_with_token header t Ht)).
    rewrite Ht. simpl. rewrite Hv, Hh. destruct data. now repeat split.
Qed.

Lemma auth_guard_witness :
  auth Sample.quiet (Sample.bearer "Bearer jwt.a@x.com")
  = Next (mkRequest (Some "Bearer jwt.a@x.com")
                    (Some (mkClaims 1 "a@x.com")))
  /\ auth Sample.quiet (Sample.bearer "Bearer jwt.forged")
     = Rejected (error 401 "Invalid token")
  /\ auth Sample.quiet (mkRequest None None)
     = Rejected (error 401 "No token").
Proof.
  split; [|split].
  - exact (proj1 (proj2 (proj2
      (auth_guard Sample.quiet (Sample.bearer "Bearer jwt.a@x.com")
                  (fun _ s => (ok [], s)) []))
      "Bearer jwt.a@x.com" "jwt.a@x.com" (mkClaims 1 "a@x.com")
      eq_refl eq_refl eq_refl)).
  - exact (proj1 (proj1 (proj2
      (auth_guard Sample.quiet (Sample.bearer "Bearer jwt.forged")
                  (fun _ s => (ok [], s)) []))
      "Bearer jwt.forged" "jwt.forged" eq_refl eq_refl eq_refl)).
  - exact (proj1 (proj1
      (auth_guard Sample.quiet (mkRequest None None)
                  (fun _ s => (ok [], s)) [])
      eq_refl)).
Defined.

(** *** Segments of the header *)

(** A word without spaces is the first segment of whatever follows it
    after a space. *)
Lemma split_word (w rest : string) :
  no_space w = true ->
  JS.split space (w ++ String space rest)%string = w :: JS.split space rest.
Proof.
  induction w as [|c w IH]; simpl; intros Hw.
  - reflexivity.
  - apply andb_true_iff in Hw as [Hc Hrest].
    apply negb_true_iff in Hc. rewrite Hc, (IH Hrest). reflexivity.
Qed.

Lemma split_last_word (w : string) :
  no_space w = true -> JS.split space w = [w].
Proof.
  induction w as [|c w IH]; simpl; intros Hw.
  - reflexivity.
  - apply andb_true_iff in Hw as [Hc Hrest].
    apply negb_true_iff in Hc. rewrite Hc, (IH Hrest). reflexivity.
Qed.

Lemma token_of_header (scheme t : string) :
  no_space scheme = true ->
  no_space t = true ->
  token_of (header_of scheme t) = Some t.
Proof.
  intros Hs Ht. unfold token_of, header_of.
  now rewrite (split_word scheme t Hs), (split_last_word t Ht).
Qed.

Lemma token_of_single_word (w : string) :
  no_space w = true -> token_of w = None.
Proof.
  intros Hw. unfold token_of. now rewrite (split_last_word w Hw).
Qed.

(** C10, as stated, fails on the empty header value: it has no second
    segment, and the guard answers "No token", not "Invalid token". *)
Lemma auth_empty_header_no_token :
  ~ (forall (e : env) (header : string),
        token_of header = None ->
        auth e (mkRequest (Some header) None)
        = Rejected (error 401 "Invalid token")).
Proof.
  intros claim.
  specialize (claim Sample.quiet EmptyString eq_refl).
  discriminate claim.
Qed.

(** C10, amended.  The guard never looks at the scheme word.  For every
    non-empty header value the token is the second segment of the value
    split at each space, and the outcome is that of verifying it: so a
    header [scheme token] whose token verifies is let through whatever
    the scheme is, and a non-empty header without a second segment (a
    single word) is answered 401 "Invalid token".  The empty header
    value is answered 401 "No token". *)
Theorem auth_ignores_scheme (e : env) (req : request) (header : string) :
  authorization req = Some header ->
  header <> EmptyString ->
  auth e req
  = match JS.index (JS.split space header) 1 with
    | Some t =>
        match jwt_verify e t with
        | Some data => Next (mkRequest (Some header) (Some data))
        | None => Rejected (error 401 "Invalid token")
        end
    | None => Rejected (error 401 "Invalid token")
    end
  /\ (forall (scheme t : string) (data : claims),
         header = header_of scheme t ->
         no_space scheme = true ->
         no_space t = true ->
         jwt_verify e t = Some data ->
         auth e req = Next (mkRequest (Some header) (Some data)))
  /\ (JS.index (JS.split space header) 1 = None ->
      auth e req = Rejected (error 401 "Invalid token"))
  /\ (no_space header = true ->
      auth e req = Rejected (error 401 "Invalid token"))
  /\ auth e (mkRequest (Some EmptyString) (user req))
     = Rejected (error 401 "No token").
Proof.
  intros Hh Hne.
  pose proof (auth_present e req header Hh (nonempty_truthy header Hne)) as Ha.
  unfold verify, token_of in Ha.
  split; [|split; [|split; [|split]]].
  - rewrite Ha. now destruct (JS.index (JS.split space header) 1).
  - intros scheme t data -> Hs Ht Hv. rewrite Ha.
    fold (token_of (header_of scheme t)).
    now rewrite (token_of_header scheme t Hs Ht), Hv.
  - intros Hnone. now rewrite Ha, Hnone.
  - intros Hw. rewrite Ha. fold (token_of header).
    now rewrite (token_of_single_word header Hw).
  - reflexivity.
Qed.

Lemma auth_ignores_scheme_witness :
  auth Sample.quiet (Sample.bearer "Basic jwt.a@x.com")
  = Next (mkRequest (Some "Basic jwt.a@x.com")
                    (Some (mkClaims 1 "a@x.com"))).
Proof.
  refine (proj1 (proj2
    (auth_ignores_scheme Sample.quiet (Sample.bearer "Basic jwt.a@x.com")
                         "Basic jwt.a@x.com" eq_refl _))
    "Basic" "jwt.a@x.com" (mkClaims 1 "a@x.com")
    eq_refl eq_refl eq_refl eq_refl).
  discriminate.
Defined.

(* ------------------------------------------------------------------ *)
(** ** Profile *)

Lemma select_minus_omits (field : string) (o : object) (v : json) :
  ~ In (field, v) (select_minus field o).
Proof.
  unfold select_minus. intros Hin. apply filter_In in Hin as [_ Hk].
  simpl in Hk. now rewrite String.eqb_refl in Hk.
Qed.

Lemma select_minus_keeps (field k : string) (o : object) (v : json) :
  k <> field ->
  In (k, v) (select_minus field o) <-> In (k, v) o.
Proof.
  intros Hk. unfold select_minus. rewrite filter_In. simpl.
  apply String.eqb_neq in Hk. rewrite Hk. simpl. tauto.
Qed.

Lemma auth_assigns_user (e : env) (req0 req : request) :
  auth e req0 = Next req -> exists data : claims, user req = Some data.
Proof.
  unfold auth. destruct (negb (JS.truthy (authorization req0))); [discriminate|].
  destruct (verify e _) as [data|]; [|discriminate].
  intros [= <-]. now exists data.
Qed.

(** C7.  A profile request that the guard lets through with the claims
    [data]: when [findById] throws the answer is the 500 "Server error";
    when no account has the id [id data] it is 404 "User not found";
    otherwise it is a 200 whose body is the account found by that id
    without its [passwordHash] field: no [passwordHash] entry, and every
    other field of the document as it is stored.  The collection is not
    changed. *)
Theorem me_profile (e : env) (req0 req : request) (s : store) :
  auth e req0 = Next req ->
  exists data : claims,
    user req = Some data
    /\ (fails e FindById = true ->
        me e req0 s = (error 500 "Server error", s))
    /\ (fails e FindById = false ->
        Db.findOne (Db.by_id (id data)) s = None ->
        me e req0 s = (error 404 "User not found", s))
    /\ (forall account : User,
           fails e FindById = false ->
           Db.findOne (Db.by_id (id data)) s = Some account ->
           me e req0 s
           = (mkResponse 200 (select_minus "passwordHash" (toObject account)),
              s)
           /\ (forall v : json,
                  ~ In ("passwordHash", v) (body (fst (me e req0 s))))
           /\ (forall (k : string) (v : json),
                  k <> "passwordHash" ->
                  (In (k, v) (body (fst (me e req0 s)))
                   <-> In (k, v) (toObject account)))).
Proof.
  intros Hauth. destruct (auth_assigns_user e req0 req Hauth) as [data Hdata].
  exists data. split; [exact Hdata|].
  assert (me e req0 s = try_catch (me_body e req) s) as ->
      by (unfold me, guarded; now rewrite Hauth).
  unfold try_catch, me_body. rewrite Hdata. unfold bind, query.
  split; [|split].
  - intros ->. reflexivity.
  - intros -> Hnone. unfold findById_select. now rewrite Hnone.
  - intros account -> Hfound. unfold findById_select. rewrite Hfound.
    unfold option_map, respond, ok. cbn [fst body].
    split; [reflexivity|]. split.
    + intros v. apply select_minus_omits.
    + intros k v Hk. now apply select_minus_keeps.
Qed.

Lemma me_profile_witness :
  exists data : claims,
    user (mkRequest (Some "Bearer jwt.a@x.com") (Some (mkClaims 1 "a@x.com")))
    = Some data
    /\ me Sample.quiet (Sample.bearer "Bearer jwt.a@x.com") Sample.accounts
       = (mkResponse 200
            [("_id", JObjectId 1); ("email", JString "a@x.com");
             ("fullName", JString "Alice");
             ("referralCode", JString "GGR1R1R1"); ("referredBy", JNull);
             ("balance", JNumber 0); ("points", JNumber 0);
             ("createdAt", JNumber 1600000000000)],
          Sample.accounts).
Proof.
  destruct (me_profile Sample.quiet (Sample.bearer "Bearer jwt.a@x.com")
              (mkRequest (Some "Bearer jwt.a@x.com")
                         (Some (mkClaims 1 "a@x.com")))
              Sample.accounts eq_refl) as (data & Hdata & _ & _ & Hfound).
  exists data. split; [exact Hdata|].
  injection Hdata as <-.
  exact (proj1 (Hfound Sample.alice eq_refl eq_refl)).
Defined.

(* ------------------------------------------------------------------ *)
(** ** What the operations may change *)

Lemma login_store (e : env) (r : login_request) (s : store) :
  snd (login e r s) = s.
Proof.
  unfold login, try_catch, login_body.
  destruct (negb (JS.truthy (login_email r))
            || negb (JS.truthy (login_password r))); [reflexivity|].
  unfold bind, query, compute.
  destruct (fails e FindByEmail); [reflexivity|].
  destruct (Db.findOne _ s) as [account|]; [|reflexivity].
  destruct (fails e Compare); [reflexivity|].
  destruct (bcrypt_compare e _ _); simpl; [|reflexivity].
  destruct (fails e Sign); reflexivity.
Qed.

Lemma guarded_store (e : env) (h : request -> store -> response * store)
      (req : request) (s : store) :
  (forall req' : request, snd (h req' s) = s) ->
  snd (guarded e h req s) = s.
Proof.
  intros Hh. unfold guarded. destruct (auth e req); [reflexivity | apply Hh].
Qed.

Lemma me_store (e : env) (req : request) (s : store) :
  snd (me e req s) = s.
Proof.
  apply guarded_store. intros req'. unfold try_catch, me_body.
  destruct (user req') as [data|]; [|reflexivity].
  unfold bind, query. destruct (fails e FindById); [reflexivity|].
  destruct (findById_select (id data) s); reflexivity.
Qed.

Lemma payment_store (e : env) (req : request) (s : store) :
  snd (payment e req s) = s.
Proof.
  apply guarded_store. reflexivity.
Qed.

(** The sponsor block leaves the collection alone or writes the
    commission to the account it found. *)
Lemma credit_sponsor_cases (e : env) (r : register_request) (s : store) :
  credit_sponsor e r s = (Value tt, s)
  \/ credit_sponsor e r s = (Thrown, s)
  \/ exists sponsor : User,
       JS.truthy (reg_referralCode r) = true
       /\ Db.findOne (Db.by_referral (JS.text (reg_referralCode r))) s
          = Some sponsor
       /\ credit_sponsor e r s = (Value tt, credited sponsor s).
Proof.
  destruct (JS.truthy (reg_referralCode r)) eqn:Hc;
    [|left; now apply credit_sponsor_skipped].
  destruct (fails e FindByReferral) eqn:Hq;
    [right; left; now apply credit_sponsor_lookup_throws|].
  destruct (Db.findOne (Db.by_referral (JS.text (reg_referralCode r))) s)
    as [sponsor|] eqn:Hk;
    [|left; now apply credit_sponsor_unknown].
  rewrite (credit_sponsor_known e r s sponsor Hc Hq Hk).
  destruct (fails e SaveSponsor); [now right; left|].
  right; right. exists sponsor. now repeat split.
Qed.

(** Either a registration writes nothing, or it got past the checks. *)
Lemma register_stopped_or_checked (e : env) (r : register_request) (s : store) :
  snd (register e r s) = s
  \/ (JS.truthy (reg_email r) = true
      /\ JS.truthy (reg_password r) = true
      /\ fails e FindByEmail = false
      /\ Db.findOne (Db.by_email (JS.text (reg_email r))) s = None
      /\ fails e Hash = false).
Proof.
  unfold register, try_catch, register_body.
  destruct (JS.truthy (reg_email r)); [|now left].
  destruct (JS.truthy (reg_password r)); [|now left]. simpl.
  unfold bind at 1. unfold query at 1.
  destruct (fails e FindByEmail); [now left|].
  destruct (Db.findOne _ s); [now left|].
  unfold bind at 1. unfold compute at 1.
  destruct (fails e Hash); [now left|].
  right. now repeat split.
Qed.

(** The writes of a registration: at most the commission of the sponsor
    it found, then at most the new document at the end. *)
Lemma register_writes (e : env) (r : register_request) (s : store) :
  exists (s1 tail : store),
    snd (register e r s) = s1 ++ tail
    /\ (s1 = s
        \/ exists sponsor : User,
             JS.truthy (reg_referralCode r) = true
             /\ Db.findOne (Db.by_referral (JS.text (reg_referralCode r))) s
                = Some sponsor
             /\ Db.findOne (Db.by_email (JS.text (reg_email r))) s = None
             /\ s1 = credited sponsor s)
    /\ (tail = [] \/ tail = [candidate e r s]).
Proof.
  destruct (register_stopped_or_checked e r s)
    as [Hs | (He & Hp & Hl & Hu & Hh)].
  - exists s, []. rewrite app_nil_r. auto.
  - rewrite (register_checked e r s He Hp Hl Hu Hh).
    unfold try_catch, persist_and_answer, bind.
    destruct (credit_sponsor_cases e r s)
      as [-> | [-> | (sponsor & Hc & Hk & ->)]].
    + rewrite (insert_and_answer_run e r s s Hu).
      exists s. destruct (fails e SaveUser);
        [exists []; rewrite app_nil_r; auto|].
      exists [candidate e r s]. destruct (fails e Sign); auto.
    + exists s, []. rewrite app_nil_r. auto.
    + rewrite (insert_and_answer_run e r s (credited sponsor s))
        by (now apply set_balance_email_free).
      exists (credited sponsor s).
      assert (credited sponsor s = s
              \/ exists sp : User,
                   JS.truthy (reg_referralCode r) = true
                   /\ Db.findOne
                        (Db.by_referral (JS.text (reg_referralCode r))) s
                      = Some sp
                   /\ Db.findOne (Db.by_email (JS.text (reg_email r))) s = None
                   /\ credited sponsor s = credited sp s) as Hs1
          by (right; exists sponsor; auto).
      destruct (fails e SaveUser);
        [exists []; rewrite app_nil_r; auto|].
      exists [candidate e r s]. destruct (fails e Sign); auto.
Qed.

Lemma same_but_balance_refl (u : User) : same_but_balance u u.
Proof. unfold same_but_balance. now destruct u. Qed.

Lemma same_but_balance_trans (u v w : User) :
  same_but_balance u v -> same_but_balance v w -> same_but_balance u w.
Proof.
  unfold same_but_balance. intros Huv Hvw. rewrite Hvw at 1. now rewrite Huv.
Qed.

Lemma truthy_text (o : option string) :
  JS.truthy o = true -> o = Some (JS.text o).
Proof.
  destruct o; [reflexivity | discriminate].
Qed.

(** The account a registration finds as sponsor is credited by it in
    the sense of [credits]: it holds the code named by the request and
    has another email than the one being registered. *)
Lemma sponsor_is_credited (r : register_request) (s : store) (sponsor : User) :
  JS.truthy (reg_referralCode r) = true ->
  Db.findOne (Db.by_referral (JS.text (reg_referralCode r))) s = Some sponsor ->
  Db.findOne (Db.by_email (JS.text (reg_email r))) s = None ->
  credits (Register r) sponsor.
Proof.
  intros Hc Hk Hu. apply findOne_in in Hk as [Hin Hcode].
  unfold Db.by_referral in Hcode. apply String.eqb_eq in Hcode.
  simpl. split; [exact Hc|]. split.
  - rewrite Hcode. now apply truthy_text.
  - intros Hsame.
    pose proof (find_none _ _ Hu sponsor Hin) as Hne.
    unfold Db.by_email in Hne. rewrite Hsame in Hne. simpl in Hne.
    now rewrite String.eqb_refl in Hne.
Qed.

Lemma register_account (e : env) (r : register_request) (s : store)
      (j : nat) (u : User) :
  Db.wf s ->
  Db.findOne (Db.by_id j) s = Some u ->
  exists u' : User,
    Db.findOne (Db.by_id j) (snd (register e r s)) = Some u'
    /\ (u' = u
        \/ (credits (Register r) u
            /\ u' = with_balance u (credit (balance u)))).
Proof.
  intros Hwf Hu.
  destruct (register_writes e r s)
    as (s1 & tail & -> & [-> | (sponsor & Hc & Hk & Hfree & ->)] & _).
  - exists u. split; [now apply findOne_app | now left].
  - destruct (Nat.eq_dec (_id sponsor) j) as [<- | Hj].
    + assert (u = sponsor) as ->.
      { pose proof (proj1 (findOne_in _ _ _ Hk)) as Hin.
        rewrite (wf_first_by_id s sponsor Hwf Hin) in Hu. congruence. }
      exists (with_balance sponsor (credit (balance sponsor))). split.
      * apply findOne_app. unfold credited. now apply set_balance_found.
      * right. split; [now apply sponsor_is_credited with s | reflexivity].
    + exists u. split; [|now left].
      apply findOne_app. unfold credited.
      now rewrite set_balance_other.
Qed.

Lemma register_wf (e : env) (r : register_request) (s : store) :
  Db.wf s -> Db.wf (snd (register e r s)).
Proof.
  intros Hwf.
  destruct (register_writes e r s) as (s1 & tail & -> & Hs1 & Htail).
  assert (map _id s1 = map _id s) as Hids.
  { destruct Hs1 as [-> | (sponsor & _ & _ & _ & ->)]; [reflexivity|].
    apply set_balance_ids. }
  unfold Db.wf. rewrite map_app, Hids.
  destruct Htail as [-> | ->]; simpl.
  - now rewrite app_nil_r.
  - now apply fresh_id_wf.
Qed.

Lemma step_store (e : env) (op : operation) (s : store) :
  match op with
  | Register _ => True
  | _ => snd (step e op s) = s
  end.
Proof.
  destruct op; simpl;
    [trivial | apply login_store | apply me_store | apply payment_store].
Qed.

Lemma step_wf (e : env) (op : operation) (s : store) :
  Db.wf s -> Db.wf (snd (step e op s)).
Proof.
  intros Hwf. pose proof (step_store e op s) as Hs.
  destruct op; [now apply register_wf | | |]; now rewrite Hs.
Qed.

Lemma step_account (e : env) (op : operation) (s : store) (j : nat) (u : User) :
  Db.wf s ->
  Db.findOne (Db.by_id j) s = Some u ->
  exists u' : User,
    Db.findOne (Db.by_id j) (snd (step e op s)) = Some u'
    /\ (u' = u
        \/ (credits op u /\ u' = with_balance u (credit (balance u)))).
Proof.
  intros Hwf Hu. pose proof (step_store e op s) as Hs.
  destruct op; [now apply register_account | | |];
    rewrite Hs; exists u; auto.
Qed.

(** C8.  Through any sequence of operations, each run in any
    environment, an account of the starting collection stays stored
    under its id with every field but the balance as it was (its
    [referredBy] among them); and its balance differs in the end only
    if the sequence holds a registration that names its referral code
    and registers another email.  Login, profile and payment requests
    leave the whole collection as it is. *)
Theorem accounts_only_credited (trace : list (env * operation)) (s : store)
        (j : nat) (u : User) :
  Db.wf s ->
  Db.findOne (Db.by_id j) s = Some u ->
  (exists u' : User,
      Db.findOne (Db.by_id j) (run trace s) = Some u'
      /\ same_but_balance u u'
      /\ referredBy u' = referredBy u
      /\ (balance u' <> balance u ->
          exists (e : env) (r : register_request),
            In (e, Register r) trace
            /\ JS.truthy (reg_referralCode r) = true
            /\ reg_referralCode r = Some (referralCode u)
            /\ reg_email r <> Some (email u)))
  /\ (forall (e : env) (s0 : store),
         (forall r : login_request, snd (step e (Login r) s0) = s0)
         /\ (forall req : request, snd (step e (Me req) s0) = s0)
         /\ (forall req : request, snd (step e (Payment req) s0) = s0)).
Proof.
  intros Hwf Hu. split.
  - revert s u Hwf Hu. induction trace as [|[e op] rest IH]; intros s u Hwf Hu.
    + exists u. simpl. split; [exact Hu|].
      split; [apply same_but_balance_refl|]. split; [reflexivity|].
      intros Hne. now elim Hne.
    + simpl.
      destruct (step_account e op s j u Hwf Hu) as (u1 & Hu1 & Hstep).
      destruct (IH _ u1 (step_wf e op s Hwf) Hu1)
        as (u' & Hu' & Hsame & Href & Hbal).
      assert (same_but_balance u u1) as Hsame1.
      { destruct Hstep as [-> | [_ ->]];
          [apply same_but_balance_refl | reflexivity]. }
      exists u'. split; [exact Hu'|].
      split; [now apply same_but_balance_trans with u1|].
      split; [rewrite Href, Hsame1; reflexivity|].
      intros Hne.
      destruct Hstep as [-> | [Hcred _]].
      * destruct (Hbal Hne) as (e' & r' & Hin & Hr').
        exists e', r'. split; [now right | exact Hr'].
      * destruct op as [r| | |]; simpl in Hcred; try contradiction.
        exists e, r. split; [now left | exact Hcred].
  - intros e s0. repeat split; intros.
    + apply login_store.
    + apply me_store.
    + apply payment_store.
Qed.

Lemma accounts_only_credited_witness :
  exists u' : User,
    Db.findOne (Db.by_id 1)
      (run [(Sample.quiet, Login (mkLogin (Some "a@x.com") (Some "pw1")));
            (Sample.quiet,
             Register (Sample.join "b@x.com" "pw2" (Some "GGR1R1R1")));
            (Sample.quiet, Me (Sample.bearer "Bearer jwt.a@x.com"))]
           Sample.accounts)
    = Some u'
    /\ same_but_balance Sample.alice u'
    /\ referredBy u' = referredBy Sample.alice.
Proof.
  assert (Db.wf Sample.accounts) as Hwf.
  { unfold Db.wf. simpl. repeat constructor; simpl; intuition discriminate. }
  destruct (proj1 (accounts_only_credited
              [(Sample.quiet, Login (mkLogin (Some "a@x.com") (Some "pw1")));
               (Sample.quiet,
                Register (Sample.join "b@x.com" "pw2" (Some "GGR1R1R1")));
               (Sample.quiet, Me (Sample.bearer "Bearer jwt.a@x.com"))]
              Sample.accounts 1 Sample.alice Hwf eq_refl))
    as (u' & Hfound & Hsame & Href & _).
  exists u'. auto.
Defined.

(** The separator is the single space: with two spaces after the scheme
    the second segment is empty, and a valid token behind them is not
    looked at. *)
Example auth_double_space :
  token_of "Bearer  jwt.a@x.com" = Some EmptyString
  /\ auth Sample.quiet (Sample.bearer "Bearer  jwt.a@x.com")
     = Rejected (error 401 "Invalid token").
Proof. split; reflexivity. Qed.

(* ------------------------------------------------------------------ *)
(** ** The scenario of the sample accounts *)

Example register_bogus_code :
  register Sample.quiet (Sample.join "d@x.com" "pw4" (Some "bogus"))
           Sample.accounts
  = (registered "jwt.d@x.com" "GG4FZYO8",
     Sample.accounts
     ++ [mkUser 3 "d@x.com" "$2b$10$pw4" None None None None None
                "GG4FZYO8" (Some "bogus") (JS.Num 0) 0%Z 1700000000000%Z]).
Proof. reflexivity. Qed.

Example login_alice :
  login Sample.quiet (mkLogin (Some "a@x.com") (Some "pw1")) Sample.accounts
  = (logged_in "jwt.a@x.com", Sample.accounts).
Proof. reflexivity. Qed.

Example me_lookup_down :
  me Sample.find_by_id_down (Sample.bearer "Bearer jwt.a@x.com")
     Sample.accounts
  = (error 500 "Server error", Sample.accounts).
Proof. reflexivity. Qed.

Example me_without_header :
  me Sample.quiet (mkRequest None None) Sample.accounts
  = (error 401 "No token", Sample.accounts).
Proof. reflexivity. Qed.

Example payment_simulated :
  payment Sample.quiet (Sample.bearer "Bearer jwt.a@x.com") Sample.accounts
  = (ok [("message", JString payment_message)], Sample.accounts).
Proof. reflexivity. Qed.

(* ------------------------------------------------------------------ *)
(** * Further properties of the handlers *)

(** ** The ways each handler can end *)

Lemma register_invalid (e : env) (r : register_request) (s : store) :
  JS.truthy (reg_email r) = false \/ JS.truthy (reg_password r) = false ->
  register e r s = (error 400 "Email and password required", s).
Proof.
  intros Hbad. unfold register, try_catch, register_body.
  assert (negb (JS.truthy (reg_email r)) || negb (JS.truthy (reg_password r))
          = true) as ->.
  { destruct Hbad as [-> | ->]; [reflexivity | apply orb_true_r]. }
  reflexivity.
Qed.

Lemma register_taken (e : env) (r : register_request) (s : store)
      (account : User) :
  JS.truthy (reg_email r) = true ->
  JS.truthy (reg_password r) = true ->
  fails e FindByEmail = false ->
  Db.findOne (Db.by_email (JS.text (reg_email r))) s = Some account ->
  register e r s = (error 400 "Email already registered", s).
Proof.
  intros He Hp Hl Hfound. unfold register, try_catch, register_body.
  rewrite He, Hp. simpl. unfold bind, query.
  now rewrite Hl, Hfound.
Qed.

Lemma register_early_throw (e : env) (r : register_request) (s : store) :
  JS.truthy (reg_email r) = true ->
  JS.truthy (reg_password r) = true ->
  fails e FindByEmail = true
  \/ (Db.findOne (Db.by_email (JS.text (reg_email r))) s = None
      /\ fails e Hash = true) ->
  register e r s = (error 500 "Server error", s).
Proof.
  intros He Hp Hthrow. unfold register, try_catch, register_body.
  rewrite He, Hp. simpl. unfold bind at 1. unfold query at 1.
  destruct Hthrow as [-> | [Hu Hh]]; [reflexivity|].
  destruct (fails e FindByEmail); [reflexivity|]. rewrite Hu.
  unfold bind at 1. unfold compute at 1. now rewrite Hh.
Qed.

(** Every registration ends in one of four ways: turned away by the
    validation, turned away as a duplicate, stopped by a throw before
    anything is written, or carried through the sponsor block to one of
    the endings of [ending]. *)
Lemma register_cases (e : env) (r : register_request) (s : store) :
  ((JS.truthy (reg_email r) = false \/ JS.truthy (reg_password r) = false)
   /\ register e r s = (error 400 "Email and password required", s))
  \/ (exists account : User,
         Db.findOne (Db.by_email (JS.text (reg_email r))) s = Some account
         /\ register e r s = (error 400 "Email already registered", s))
  \/ register e r s = (error 500 "Server error", s)
  \/ (JS.truthy (reg_email r) = true
      /\ JS.truthy (reg_password r) = true
      /\ Db.findOne (Db.by_email (JS.text (reg_email r))) s = None
      /\ exists s1 : store,
           sponsor_step r s s1 /\ register e r s = ending e r s s1).
Proof.
  destruct (JS.truthy (reg_email r)) eqn:He;
    [|left; split; [now left | apply register_invalid; now left]].
  destruct (JS.truthy (reg_password r)) eqn:Hp;
    [|left; split; [now right | apply register_invalid; now right]].
  destruct (fails e FindByEmail) eqn:Hl;
    [right; right; left; apply register_early_throw; auto|].
  destruct (Db.findOne (Db.by_email (JS.text (reg_email r))) s)
    as [account|] eqn:Hu.
  { right; left. exists account. split; [reflexivity|].
    now apply register_taken with account. }
  destruct (fails e Hash) eqn:Hh;
    [right; right; left; apply register_early_throw; auto|].
  rewrite (register_checked e r s He Hp Hl Hu Hh).
  unfold try_catch, persist_and_answer, bind.
  destruct (credit_sponsor_cases e r s)
    as [-> | [-> | (sponsor & Hc & Hk & ->)]].
  - right; right; right. repeat split. exists s. split; [now left|].
    rewrite (insert_and_answer_run e r s s Hu). unfold ending.
    destruct (fails e SaveUser); [reflexivity|].
    destruct (fails e Sign); reflexivity.
  - right; right; left. reflexivity.
  - right; right; right. repeat split. exists (credited sponsor s).
    split; [right; exists sponsor; auto|].
    rewrite (insert_and_answer_run e r s (credited sponsor s))
      by (now apply set_balance_email_free).
    unfold ending. destruct (fails e SaveUser); [reflexivity|].
    destruct (fails e Sign); reflexivity.
Qed.

Lemma login_invalid (e : env) (r : login_request) (s : store) :
  JS.truthy (login_email r) = false \/ JS.truthy (login_password r) = false ->
  login e r s = (error 400 "Email and password required", s).
Proof.
  intros Hbad. unfold login, try_catch, login_body.
  assert (negb (JS.truthy (login_email r))
          || negb (JS.truthy (login_password r)) = true) as ->.
  { destruct Hbad as [-> | ->]; [reflexivity | apply orb_true_r]. }
  reflexivity.
Qed.

Lemma login_accepted (e : env) (r : login_request) (s : store)
      (account : User) :
  JS.truthy (login_email r) = true ->
  JS.truthy (login_password r) = true ->
  fails e FindByEmail = false ->
  Db.findOne (Db.by_email (JS.text (login_email r))) s = Some account ->
  fails e Compare = false ->
  bcrypt_compare e (JS.text (login_password r)) (passwordHash account) = true ->
  login e r s
  = if fails e Sign then (error 500 "Server error", s)
    else (logged_in (jwt_sign e (mkClaims (_id account) (email account))), s).
Proof.
  intros He Hp Hl Hn Hc Hm. unfold login, try_catch, login_body.
  rewrite He, Hp. simpl. unfold bind, query, compute.
  rewrite Hl, Hn, Hc, Hm. simpl. now destruct (fails e Sign).
Qed.

Lemma login_throws (e : env) (r : login_request) (s : store) :
  JS.truthy (login_email r) = true ->
  JS.truthy (login_password r) = true ->
  fails e FindByEmail = true
  \/ (Db.findOne (Db.by_email (JS.text (login_email r))) s <> None
      /\ fails e Compare = true) ->
  login e r s = (error 500 "Server error", s).
Proof.
  intros He Hp Hthrow. unfold login, try_catch, login_body.
  rewrite He, Hp. simpl. unfold bind, query, compute.
  destruct Hthrow as [-> | [Hu Hc]]; [reflexivity|].
  destruct (fails e FindByEmail); [reflexivity|].
  destruct (Db.findOne _ s); [|congruence]. now rewrite Hc.
Qed.

Lemma login_cases (e : env) (r : login_request) (s : store) :
  login e r s = (error 400 "Email and password required", s)
  \/ login e r s = (error 400 "Invalid credentials", s)
  \/ login e r s = (error 500 "Server error", s)
  \/ exists account : User,
       Db.findOne (Db.by_email (JS.text (login_email r))) s = Some account
       /\ login e r s
          = (logged_in (jwt_sign e (mkClaims (_id account) (email account))),
             s).
Proof.
  destruct (JS.truthy (login_email r)) eqn:He;
    [|left; apply login_invalid; now left].
  destruct (JS.truthy (login_password r)) eqn:Hp;
    [|left; apply login_invalid; now right].
  destruct (fails e FindByEmail) eqn:Hl;
    [right; right; left; apply login_throws; auto|].
  destruct (Db.findOne (Db.by_email (JS.text (login_email r))) s)
    as [account|] eqn:Hu;
    [|right; left; now apply login_unknown_email].
  destruct (fails e Compare) eqn:Hc.
  { right; right; left. apply login_throws; auto.
    right. split; [congruence | exact Hc]. }
  destruct (bcrypt_compare e (JS.text (login_password r))
                           (passwordHash account)) eqn:Hm;
    [|right; left; now apply login_wrong_password with account].
  rewrite (login_accepted e r s account He Hp Hl Hu Hc Hm).
  destruct (fails e Sign); [now right; right; left|].
  right; right; right. now exists account.
Qed.

Lemma auth_cases (e : env) (req : request) :
  auth e req = Rejected (error 401 "No token")
  \/ auth e req = Rejected (error 401 "Invalid token")
  \/ exists data : claims,
       auth e req = Next (mkRequest (authorization req) (Some data)).
Proof.
  unfold auth. destruct (negb (JS.truthy (authorization req))); [now left|].
  destruct (verify e _) as [data|]; [|now right; left].
  right; right. now exists data.
Qed.

Lemma me_cases (e : env) (req : request) (s : store) :
  me e req s = (error 401 "No token", s)
  \/ me e req s = (error 401 "Invalid token", s)
  \/ me e req s = (error 500 "Server error", s)
  \/ me e req s = (error 404 "User not found", s)
  \/ exists account : User,
       me e req s = (ok (select_minus "passwordHash" (toObject account)), s).
Proof.
  unfold me, guarded.
  destruct (auth_cases e req) as [-> | [-> | [data ->]]];
    [now left | now right; left|].
  unfold try_catch, me_body. cbn [user]. unfold bind, query.
  destruct (fails e FindById); [now right; right; left|].
  unfold findById_select.
  destruct (Db.findOne (Db.by_id (id data)) s) as [account|];
    [|now right; right; right; left].
  right; right; right; right. now exists account.
Qed.

Lemma payment_cases (e : env) (req : request) (s : store) :
  payment e req s = (error 401 "No token", s)
  \/ payment e req s = (error 401 "Invalid token", s)
  \/ payment e req s = (ok [("message", JString payment_message)], s).
Proof.
  unfold payment, guarded.
  destruct (auth_cases e req) as [-> | [-> | [data ->]]]; auto.
Qed.

(** ** Lookups in a collection that grew *)

Lemma findOne_none (p : User -> bool) (s : store) :
  (forall u : User, In u s -> p u = false) -> Db.findOne p s = None.
Proof.
  induction s as [|v rest IH]; simpl; [reflexivity|].
  intros Hall. rewrite (Hall v (or_introl eq_refl)).
  apply IH. intros u Hin. apply Hall. now right.
Qed.

Lemma findOne_app_miss (p : User -> bool) (s t : store) :
  Db.findOne p s = None -> Db.findOne p (s ++ t) = Db.findOne p t.
Proof.
  induction s as [|v rest IH]; simpl; [reflexivity|].
  destruct (p v); [discriminate | exact IH].
Qed.

Lemma sponsor_step_ids (r : register_request) (s s1 : store) :
  sponsor_step r s s1 -> map _id s1 = map _id s.
Proof.
  intros [-> | (sponsor & _ & _ & ->)]; [reflexivity | apply set_balance_ids].
Qed.

Lemma sponsor_step_email_free (r : register_request) (s s1 : store)
      (x : string) :
  sponsor_step r s s1 ->
  Db.findOne (Db.by_email x) s = None ->
  Db.findOne (Db.by_email x) s1 = None.
Proof.
  intros [-> | (sponsor & _ & _ & ->)] Hfree; [exact Hfree|].
  now apply set_balance_email_free.
Qed.

Lemma fresh_id_unused (s s1 : store) :
  map _id s1 = map _id s ->
  Db.findOne (Db.by_id (Db.fresh_id s)) s1 = None.
Proof.
  intros Hids. apply findOne_none. intros u Hin.
  apply (in_map _id) in Hin. rewrite Hids in Hin.
  apply in_map_iff in Hin as (v & Hv & Hin).
  apply fresh_id_above in Hin. unfold Db.by_id.
  apply Nat.eqb_neq. lia.
Qed.

(** The sponsor block goes through when its two calls do. *)
Lemma credit_sponsor_goes_through (e : env) (r : register_request) (s : store) :
  fails e FindByReferral = false ->
  fails e SaveSponsor = false ->
  exists s1 : store,
    sponsor_step r s s1 /\ credit_sponsor e r s = (Value tt, s1).
Proof.
  intros Hq Hs.
  destruct (JS.truthy (reg_referralCode r)) eqn:Hc;
    [|exists s; split; [now left | now apply credit_sponsor_skipped]].
  destruct (Db.findOne (Db.by_referral (JS.text (reg_referralCode r))) s)
    as [sponsor|] eqn:Hk;
    [|exists s; split; [now left | now apply credit_sponsor_unknown]].
  exists (credited sponsor s). split; [right; exists sponsor; auto|].
  rewrite (credit_sponsor_known e r s sponsor Hc Hq Hk). now rewrite Hs.
Qed.

(** A registration answered with status 200 passed the checks and
    ended with the new document appended. *)
Lemma register_answered_ok (e : env) (r : register_request) (s : store) :
  status (fst (register e r s)) = 200 ->
  JS.truthy (reg_email r) = true
  /\ JS.truthy (reg_password r) = true
  /\ Db.findOne (Db.by_email (JS.text (reg_email r))) s = None
  /\ exists s1 : store,
       sponsor_step r s s1
       /\ register e r s
          = (registered (jwt_sign e (mkClaims (Db.fresh_id s)
                                              (JS.text (reg_email r))))
                        (genReferral (random36 e)),
             s1 ++ [candidate e r s]).
Proof.
  intros Hok.
  destruct (register_cases e r s)
    as [[_ Heq] | [(account & _ & Heq) | [Heq | (He & Hp & Hu & s1 & Hs1 & Heq)]]];
    try (rewrite Heq in Hok; discriminate Hok).
  repeat split; try assumption. exists s1. split; [exact Hs1|].
  rewrite Heq in *. unfold ending in *.
  destruct (fails e SaveUser); [discriminate Hok|].
  destruct (fails e Sign); [discriminate Hok | reflexivity].
Qed.

Lemma candidate_stored (e : env) (r : register_request) (s s1 : store) :
  sponsor_step r s s1 ->
  Db.findOne (Db.by_email (JS.text (reg_email r))) s = None ->
  Db.findOne (Db.by_email (JS.text (reg_email r))) (s1 ++ [candidate e r s])
  = Some (candidate e r s)
  /\ Db.findOne (Db.by_id (Db.fresh_id s)) (s1 ++ [candidate e r s])
     = Some (candidate e r s).
Proof.
  intros Hs1 Hu. split.
  - rewrite findOne_app_miss by (now apply sponsor_step_email_free with r s).
    simpl. unfold Db.by_email. simpl. now rewrite String.eqb_refl.
  - rewrite findOne_app_miss
      by (apply fresh_id_unused; now apply sponsor_step_ids with r).
    simpl. unfold Db.by_id. simpl. now rewrite Nat.eqb_refl.
Qed.

(** ** Validation *)

(** X1.  A registration or a login whose email or password is absent or
    the empty string is answered 400 "Email and password required"
    before any call is made: in every environment, also one where every
    call throws, and whatever the collection holds, which is left as it
    is. *)
Theorem fields_required (e : env) (s : store) :
  (forall r : register_request,
      JS.truthy (reg_email r) = false \/ JS.truthy (reg_password r) = false ->
      register e r s = (error 400 "Email and password required", s))
  /\ (forall r : login_request,
         JS.truthy (login_email r) = false
         \/ JS.truthy (login_password r) = false ->
         login e r s = (error 400 "Email and password required", s))
  /\ (forall (mail pw : option string),
         (mail = None \/ mail = Some EmptyString
          \/ pw = None \/ pw = Some EmptyString) ->
         fst (register e (mkRegister mail pw None None None None None None) s)
         = error 400 "Email and password required"
         /\ fst (login e (mkLogin mail pw) s)
            = error 400 "Email and password required").
Proof.
  split; [|split].
  - intros r Hbad. now apply register_invalid.
  - intros r Hbad. now apply login_invalid.
  - intros mail pw Hbad.
    assert (JS.truthy mail = false \/ JS.truthy pw = false) as Hf.
    { destruct Hbad as [-> | [-> | [-> | ->]]]; auto. }
    rewrite register_invalid by exact Hf.
    rewrite login_invalid by exact Hf. now split.
Qed.

Lemma fields_required_witness :
  register Cover.all_down
           (mkRegister (Some "a@x.com") (Some EmptyString)
                       None None None None None (Some "GGR1R1R1"))
           Sample.accounts
  = (error 400 "Email and password required", Sample.accounts).
Proof.
  exact (proj1 (fields_required Cover.all_down Sample.accounts)
               (mkRegister (Some "a@x.com") (Some EmptyString)
                           None None None None None (Some "GGR1R1R1"))
               (or_intror eq_refl)).
Defined.

(** ** Login *)

(** X2.  A login whose email is that of an account and whose password
    [bcrypt.compare] accepts against the stored hash is answered 200
    with "Login successful" and the token signed for the [_id] and the
    email of that account; when [jwt.sign] throws it is answered 500.
    The collection is not changed either way. *)
Theorem login_issues_token (e : env) (r : login_request) (s : store)
        (account : User) :
  JS.truthy (login_email r) = true ->
  JS.truthy (login_password r) = true ->
  fails e FindByEmail = false ->
  Db.findOne (Db.by_email (JS.text (login_email r))) s = Some account ->
  fails e Compare = false ->
  bcrypt_compare e (JS.text (login_password r)) (passwordHash account) = true ->
  (fails e Sign = false ->
   login e r s
   = (mkResponse 200
        [("message", JString "Login successful");
         ("token",
          JString (jwt_sign e (mkClaims (_id account) (email account))))],
      s))
  /\ (fails e Sign = true -> login e r s = (error 500 "Server error", s)).
Proof.
  intros He Hp Hl Hu Hc Hm.
  rewrite (login_accepted e r s account He Hp Hl Hu Hc Hm).
  split; intros ->; reflexivity.
Qed.

Lemma login_issues_token_witness :
  login Sample.quiet (mkLogin (Some "a@x.com") (Some "pw1")) Sample.accounts
  = (mkResponse 200
       [("message", JString "Login successful");
        ("token", JString "jwt.a@x.com")],
     Sample.accounts).
Proof.
  exact (proj1
    (login_issues_token Sample.quiet
       (mkLogin (Some "a@x.com") (Some "pw1")) Sample.accounts Sample.alice
       eq_refl eq_refl eq_refl eq_refl eq_refl eq_refl)
    eq_refl).
Defined.

(** ** What a registration leaves behind *)

(** X3.  A registration answered with status 200 has stored exactly one
    new account, after the accounts that were there: it is the one
    found by the email of the request and by its own [_id], which no
    earlier account has; it holds the hash of the password, the
    referral code returned in the response, [referredBy] the code of the
    request (null when none or empty), balance 0 and points 0; and the
    token of the response is signed for its [_id] and email. *)
Theorem register_stores_account (e : env) (r : register_request) (s : store) :
  status (fst (register e r s)) = 200 ->
  exists (u : User) (s1 : store),
    snd (register e r s) = s1 ++ [u]
    /\ map _id s1 = map _id s
    /\ Db.findOne (Db.by_email (JS.text (reg_email r))) (snd (register e r s))
       = Some u
    /\ Db.findOne (Db.by_id (_id u)) (snd (register e r s)) = Some u
    /\ (forall v : User, In v s -> _id v <> _id u)
    /\ email u = JS.text (reg_email r)
    /\ passwordHash u = bcrypt_hash e (JS.text (reg_password r))
    /\ referralCode u = genReferral (random36 e)
    /\ referredBy u = JS.or_null (reg_referralCode r)
    /\ balance u = JS.Num 0
    /\ points u = 0%Z
    /\ fst (register e r s)
       = mkResponse 200
           [("message", JString "Registered successfully");
            ("token", JString (jwt_sign e (mkClaims (_id u) (email u))));
            ("referralCode", JString (referralCode u))].
Proof.
  intros Hok.
  destruct (register_answered_ok e r s Hok) as (He & Hp & Hu & s1 & Hs1 & Heq).
  destruct (candidate_stored e r s s1 Hs1 Hu) as [Hmail Hid].
  exists (candidate e r s), s1. rewrite Heq. cbn [fst snd].
  split; [reflexivity|].
  split; [now apply sponsor_step_ids with r|].
  split; [exact Hmail|]. split; [exact Hid|].
  split; [|repeat split].
  intros v Hin. apply fresh_id_above in Hin. simpl. lia.
Qed.

Lemma register_stores_account_witness :
  exists (u : User) (s1 : store),
    snd (register Sample.quiet (Sample.join "b@x.com" "pw2" (Some "bogus"))
                  Sample.accounts)
    = s1 ++ [u]
    /\ map _id s1 = [1; 2]%nat
    /\ referredBy u = Some "bogus"
    /\ balance u = JS.Num 0.
Proof.
  destruct (register_stores_account Sample.quiet
              (Sample.join "b@x.com" "pw2" (Some "bogus")) Sample.accounts
              eq_refl)
    as (u & s1 & Hs & Hids & _ & _ & _ & _ & _ & _ & Href & Hbal & _).
  exists u, s1. auto.
Defined.

(** X4.  After a registration answered with status 200, a second
    registration with the same email, whatever its other fields, is
    answered 400 "Email already registered" (its password being given
    and its lookup answering) and changes nothing. *)
Theorem register_twice (e1 e2 : env) (r1 r2 : register_request) (s : store) :
  status (fst (register e1 r1 s)) = 200 ->
  reg_email r2 = reg_email r1 ->
  JS.truthy (reg_password r2) = true ->
  fails e2 FindByEmail = false ->
  register e2 r2 (snd (register e1 r1 s))
  = (error 400 "Email already registered", snd (register e1 r1 s)).
Proof.
  intros Hok Hsame Hp Hl.
  destruct (register_answered_ok e1 r1 s Hok)
    as (He & _ & Hu & s1 & Hs1 & Heq).
  destruct (candidate_stored e1 r1 s s1 Hs1 Hu) as [Hmail _].
  rewrite Heq. cbn [snd].
  apply register_taken with (candidate e1 r1 s); rewrite ?Hsame; assumption.
Qed.

Lemma register_twice_witness :
  register Sample.half (Sample.join "b@x.com" "again" None)
    (snd (register Sample.quiet
                   (Sample.join "b@x.com" "pw2" (Some "GGR1R1R1"))
                   Sample.accounts))
  = (error 400 "Email already registered",
     snd (register Sample.quiet
                   (Sample.join "b@x.com" "pw2" (Some "GGR1R1R1"))
                   Sample.accounts)).
Proof.
  exact (register_twice Sample.quiet Sample.half
           (Sample.join "b@x.com" "pw2" (Some "GGR1R1R1"))
           (Sample.join "b@x.com" "again" None)
           Sample.accounts eq_refl eq_refl eq_refl eq_refl).
Defined.

(** X5.  When everything goes through up to [u.save()] and [jwt.sign]
    then throws, the registration is answered 500 "Server error"
    although the account is stored: it is found by its email, and a
    retry of the registration is turned away as a duplicate. *)
Theorem register_sign_throws (e : env) (r : register_request) (s : store) :
  JS.truthy (reg_email r) = true ->
  JS.truthy (reg_password r) = true ->
  fails e FindByEmail = false ->
  Db.findOne (Db.by_email (JS.text (reg_email r))) s = None ->
  fails e Hash = false ->
  fails e FindByReferral = false ->
  fails e SaveSponsor = false ->
  fails e SaveUser = false ->
  fails e Sign = true ->
  fst (register e r s) = error 500 "Server error"
  /\ (exists u : User,
         Db.findOne (Db.by_email (JS.text (reg_email r))) (snd (register e r s))
         = Some u
         /\ passwordHash u = bcrypt_hash e (JS.text (reg_password r)))
  /\ (forall e2 : env,
         fails e2 FindByEmail = false ->
         register e2 r (snd (register e r s))
         = (error 400 "Email already registered", snd (register e r s))).
Proof.
  intros He Hp Hl Hu Hh Hq Hs Hsave Hsign.
  destruct (credit_sponsor_goes_through e r s Hq Hs) as (s1 & Hs1 & Hblock).
  assert (register e r s
          = (error 500 "Server error", s1 ++ [candidate e r s])) as Heq.
  { rewrite (register_checked e r s He Hp Hl Hu Hh).
    unfold try_catch, persist_and_answer, bind. rewrite Hblock.
    rewrite (insert_and_answer_run e r s s1)
      by (now apply sponsor_step_email_free with r s).
    now rewrite Hsave, Hsign. }
  destruct (candidate_stored e r s s1 Hs1 Hu) as [Hmail _].
  rewrite Heq. cbn [fst snd]. split; [reflexivity|]. split.
  - exists (candidate e r s). now split.
  - intros e2 Hl2. now apply register_taken with (candidate e r s).
Qed.

Lemma register_sign_throws_witness :
  fst (register Cover.sign_down (Sample.join "b@x.com" "pw2" None)
                Sample.accounts)
  = error 500 "Server error"
  /\ register Sample.quiet (Sample.join "b@x.com" "pw2" None)
       (snd (register Cover.sign_down (Sample.join "b@x.com" "pw2" None)
                      Sample.accounts))
     = (error 400 "Email already registered",
        snd (register Cover.sign_down (Sample.join "b@x.com" "pw2" None)
                      Sample.accounts)).
Proof.
  destruct (register_sign_throws Cover.sign_down
              (Sample.join "b@x.com" "pw2" None) Sample.accounts
              eq_refl eq_refl eq_refl eq_refl eq_refl
              eq_refl eq_refl eq_refl eq_refl) as (Hfst & _ & Hretry).
  split; [exact Hfst | exact (Hretry Sample.quiet eq_refl)].
Defined.

(** X6.  A registration answered with status 200 can be followed by a
    login with the same email and password: when [bcrypt.compare]
    accepts the password against the hash made at registration, the
    login is answered 200 and its token is signed for the same [_id]
    and email as the token of the registration. *)
Theorem register_then_login (e1 e2 : env) (r : register_request) (s : store) :
  status (fst (register e1 r s)) = 200 ->
  fails e2 FindByEmail = false ->
  fails e2 Compare = false ->
  fails e2 Sign = false ->
  bcrypt_compare e2 (JS.text (reg_password r))
                 (bcrypt_hash e1 (JS.text (reg_password r))) = true ->
  exists c : claims,
    fst (register e1 r s)
    = registered (jwt_sign e1 c) (genReferral (random36 e1))
    /\ login e2 (mkLogin (reg_email r) (reg_password r))
             (snd (register e1 r s))
       = (logged_in (jwt_sign e2 c), snd (register e1 r s))
    /\ option_map _id
         (Db.findOne (Db.by_email (JS.text (reg_email r)))
                     (snd (register e1 r s)))
       = Some (id c)
    /\ claim_email c = JS.text (reg_email r).
Proof.
  intros Hok Hl Hc Hsign Hm.
  destruct (register_answered_ok e1 r s Hok) as (He & Hp & Hu & s1 & Hs1 & Heq).
  destruct (candidate_stored e1 r s s1 Hs1 Hu) as [Hmail _].
  exists (mkClaims (Db.fresh_id s) (JS.text (reg_email r))).
  rewrite Heq. cbn [fst snd]. split; [reflexivity|]. split.
  - rewrite (login_accepted e2 (mkLogin (reg_email r) (reg_password r))
               (s1 ++ [candidate e1 r s]) (candidate e1 r s)
               He Hp Hl Hmail Hc Hm).
    now rewrite Hsign.
  - rewrite Hmail. now split.
Qed.

Lemma register_then_login_witness :
  exists c : claims,
    fst (register Sample.quiet (Sample.join "b@x.com" "pw2" None)
                  Sample.accounts)
    = registered (jwt_sign Sample.quiet c) "GG4FZYO8"
    /\ fst (login Sample.half (mkLogin (Some "b@x.com") (Some "pw2"))
                  (snd (register Sample.quiet
                                 (Sample.join "b@x.com" "pw2" None)
                                 Sample.accounts)))
       = logged_in (jwt_sign Sample.half c).
Proof.
  destruct (register_then_login Sample.quiet Sample.half
              (Sample.join "b@x.com" "pw2" None) Sample.accounts
              eq_refl eq_refl eq_refl eq_refl eq_refl)
    as (c & Hreg & Hlog & _).
  exists c. split; [exact Hreg | exact (f_equal fst Hlog)].
Defined.

(** ** The length of referral codes *)

Lemma is_random36_inv (s : string) :
  is_random36 s = true ->
  s = "0"
  \/ exists digits : string,
       s = String "0" (String "." digits)
       /\ all_chars is_radix36_digit digits = true.
Proof.
  destruct s as [|c rest]; [discriminate|].
  destruct c as [b0 b1 b2 b3 b4 b5 b6 b7].
  destruct b0, b1, b2, b3, b4, b5, b6, b7; try discriminate.
  destruct rest as [|d digits]; [now left|].
  destruct d as [b0 b1 b2 b3 b4 b5 b6 b7].
  destruct b0, b1, b2, b3, b4, b5, b6, b7; try discriminate.
  intros H. right. exists digits. split; [reflexivity|].
  simpl in H. now apply andb_true_iff in H as [_ H].
Qed.

(** X7.  For every text [Math.random().toString(36)] can print,
    [genReferral] gives the prefix "GG" followed by upper-case
    alphanumeric characters, as many as the text has after its first
    two characters and at most six; so the code has the six-character
    format exactly when the text is at least eight characters long. *)
Theorem genReferral_length (random : string) :
  is_random36 random = true ->
  exists tail : string,
    genReferral random = String "G" (String "G" tail)
    /\ String.length tail = Nat.min 6 (String.length random - 2)
    /\ all_chars is_upper_alnum tail = true
    /\ (referral_format (genReferral random) = true
        <-> 8 <= String.length random).
Proof.
  intros Hr. destruct (is_random36_inv random Hr) as [-> | (digits & -> & Hd)].
  - exists EmptyString. repeat split; simpl; try discriminate. lia.
  - destruct (genReferral_shape digits Hd) as (tail & Heq & Hlen & Hall).
    exists tail. rewrite Heq.
    split; [reflexivity|]. split; [simpl; now rewrite Nat.sub_0_r|].
    split; [exact Hall|].
    cbn [referral_format String.length]. rewrite Hall, andb_true_r, Hlen.
    rewrite Nat.eqb_eq. lia.
Qed.

Lemma genReferral_length_witness :
  exists tail : string,
    genReferral "0.04" = String "G" (String "G" tail)
    /\ String.length tail = 2.
Proof.
  destruct (genReferral_length "0.04" eq_refl) as (tail & Heq & Hlen & _).
  exists tail. split; [exact Heq | exact Hlen].
Defined.

(** ** Invariants of the collection *)

Lemma set_balance_emails (i : nat) (b : JS.number) (s : store) :
  map email (Db.set_balance i b s) = map email s.
Proof.
  induction s as [|u rest IH]; simpl; [reflexivity|].
  destruct (Db.by_id i u); simpl; [reflexivity | now rewrite IH].
Qed.

Lemma sponsor_step_emails (r : register_request) (s s1 : store) :
  sponsor_step r s s1 -> map email s1 = map email s.
Proof.
  intros [-> | (sponsor & _ & _ & ->)]; [reflexivity | apply set_balance_emails].
Qed.

Lemma email_free_not_in (x : string) (s : store) :
  Db.findOne (Db.by_email x) s = None -> ~ In x (map email s).
Proof.
  intros Hfree Hin. apply in_map_iff in Hin as (u & Hu & Hin).
  pose proof (find_none _ _ Hfree u Hin) as Hne.
  unfold Db.by_email in Hne. rewrite Hu in Hne.
  now rewrite String.eqb_refl in Hne.
Qed.

(** The collection after a registration: the documents of before, the
    sponsor's balance apart, and at most the new one behind them. *)
Lemma register_grows (e : env) (r : register_request) (s : store) :
  exists s1 : store,
    map _id s1 = map _id s
    /\ map email s1 = map email s
    /\ (snd (register e r s) = s1
        \/ (snd (register e r s) = s1 ++ [candidate e r s]
            /\ Db.findOne (Db.by_email (JS.text (reg_email r))) s = None)).
Proof.
  destruct (register_cases e r s)
    as [[_ Heq] | [(account & _ & Heq) | [Heq | (He & Hp & Hu & s1 & Hs1 & Heq)]]];
    try solve [exists s; rewrite Heq; auto].
  exists s1.
  split; [now apply sponsor_step_ids with r|].
  split; [now apply sponsor_step_emails with r|].
  rewrite Heq. unfold ending.
  destruct (fails e SaveUser); [now left|].
  destruct (fails e Sign); now right.
Qed.

Lemma step_grows (e : env) (op : operation) (s : store) :
  exists (s1 added : store),
    snd (step e op s) = s1 ++ added
    /\ map _id s1 = map _id s
    /\ map email s1 = map email s
    /\ (added = []
        \/ exists r : register_request,
             op = Register r
             /\ added = [candidate e r s]
             /\ Db.findOne (Db.by_email (JS.text (reg_email r))) s = None).
Proof.
  pose proof (step_store e op s) as Hs.
  destruct op as [r| | |];
    try solve [exists s, []; rewrite Hs, app_nil_r; auto].
  destruct (register_grows e r s) as (s1 & Hids & Hmails & [Heq | [Heq Hu]]).
  - exists s1, []. simpl. rewrite Heq, app_nil_r. auto.
  - exists s1, [candidate e r s]. simpl. rewrite Heq.
    repeat split; auto. right. exists r. auto.
Qed.

Lemma step_emails_unique (e : env) (op : operation) (s : store) :
  emails_unique s -> emails_unique (snd (step e op s)).
Proof.
  unfold emails_unique. intros Hu.
  destruct (step_grows e op s)
    as (s1 & added & -> & _ & Hmails & [-> | (r & _ & -> & Hfree)]);
    rewrite map_app, Hmails; simpl.
  - now rewrite app_nil_r.
  - apply NoDup_app; [exact Hu | repeat constructor; simpl; tauto|].
    intros x Hx [<- | []]. now apply (email_free_not_in _ s Hfree).
Qed.

(** X8.  Every sequence of operations keeps the two uniqueness
    properties of the collection: no two accounts with the same email,
    and no two with the same [_id]. *)
Theorem run_keeps_unique (trace : list (env * operation)) (s : store) :
  (emails_unique s -> emails_unique (run trace s))
  /\ (Db.wf s -> Db.wf (run trace s)).
Proof.
  revert s. induction trace as [|[e op] rest IH]; intros s; simpl.
  - now split.
  - split; intros H.
    + apply (proj1 (IH _)). now apply step_emails_unique.
    + apply (proj2 (IH _)). now apply step_wf.
Qed.

Lemma run_keeps_unique_witness :
  emails_unique
    (run [(Sample.quiet, Register (Sample.join "b@x.com" "pw2" None));
          (Sample.quiet, Register (Sample.join "b@x.com" "pw2" None))]
         Sample.accounts).
Proof.
  apply (proj1 (run_keeps_unique
    [(Sample.quiet, Register (Sample.join "b@x.com" "pw2" None));
     (Sample.quiet, Register (Sample.join "b@x.com" "pw2" None))]
    Sample.accounts)).
  unfold emails_unique. simpl.
  repeat constructor; simpl; intuition discriminate.
Defined.

Lemma step_length (e : env) (op : operation) (s : store) :
  List.length s <= List.length (snd (step e op s))
  /\ List.length (snd (step e op s))
     <= List.length s + match op with Register _ => 1 | _ => 0 end.
Proof.
  destruct (step_grows e op s)
    as (s1 & added & -> & Hids & _ & Hadded).
  assert (List.length s1 = List.length s) as Hlen.
  { rewrite <- (length_map _id s1), Hids. apply length_map. }
  rewrite length_app, Hlen.
  destruct Hadded as [-> | (r & -> & -> & _)]; simpl; lia.
Qed.

(** X9.  No operation removes an account, and only a registration can
    add one, at most one each: after any sequence of operations the
    collection is at least as long as before and longer by at most the
    number of registration requests in the sequence. *)
Theorem run_grows (trace : list (env * operation)) (s : store) :
  List.length s <= List.length (run trace s)
  /\ List.length (run trace s) <= List.length s + registrations trace.
Proof.
  revert s. induction trace as [|[e op] rest IH]; intros s; simpl; [lia|].
  destruct (IH (snd (step e op s))) as [Hlow Hhigh].
  pose proof (step_length e op s) as [Hl Hh].
  destruct op; simpl in *; lia.
Qed.

Lemma run_grows_witness :
  List.length Sample.accounts
  <= List.length
       (run [(Sample.quiet, Register (Sample.join "b@x.com" "pw2" None));
             (Sample.quiet, Login (mkLogin (Some "b@x.com") (Some "pw2")))]
            Sample.accounts)
  /\ List.length
       (run [(Sample.quiet, Register (Sample.join "b@x.com" "pw2" None));
             (Sample.quiet, Login (mkLogin (Some "b@x.com") (Some "pw2")))]
            Sample.accounts)
     <= List.length Sample.accounts + 1.
Proof.
  exact (run_grows
           [(Sample.quiet, Register (Sample.join "b@x.com" "pw2" None));
            (Sample.quiet, Login (mkLogin (Some "b@x.com") (Some "pw2")))]
           Sample.accounts).
Defined.

(** ** The answers *)

Lemma ending_status (e : env) (r : register_request) (s s1 : store) :
  fst (ending e r s s1) = error 500 "Server error"
  \/ fst (ending e r s s1)
     = registered (jwt_sign e (mkClaims (Db.fresh_id s)
                                        (JS.text (reg_email r))))
                  (genReferral (random36 e)).
Proof.
  unfold ending. destruct (fails e SaveUser); [now left|].
  destruct (fails e Sign); [now left | now right].
Qed.

(** X10.  An operation answered with status 400, 401 or 404 has written
    nothing: the collection is exactly what it was.  Writes come only
    with the answers 200 and 500. *)
Theorem client_errors_write_nothing (e : env) (op : operation) (s : store) :
  client_error (status (fst (step e op s))) = true ->
  snd (step e op s) = s.
Proof.
  pose proof (step_store e op s) as Hs.
  destruct op as [r| | |]; try (intros _; exact Hs).
  simpl. intros Hclient.
  destruct (register_cases e r s)
    as [[_ Heq] | [(account & _ & Heq) | [Heq | (_ & _ & _ & s1 & _ & Heq)]]];
    try (now rewrite Heq).
  rewrite Heq in Hclient.
  destruct (ending_status e r s s1) as [Hst | Hst];
    rewrite Hst in Hclient; discriminate Hclient.
Qed.

Lemma client_errors_write_nothing_witness :
  snd (step Sample.quiet
            (Register (Sample.join "a@x.com" "pw9" (Some "GGC3C3C3")))
            Sample.accounts)
  = Sample.accounts.
Proof.
  exact (client_errors_write_nothing Sample.quiet
           (Register (Sample.join "a@x.com" "pw9" (Some "GGC3C3C3")))
           Sample.accounts eq_refl).
Defined.

Lemma keys_select_minus (field : string) (o : object) (k : string) :
  In k (keys (select_minus field o)) -> In k (keys o) /\ k <> field.
Proof.
  unfold keys, select_minus. intros Hin.
  apply in_map_iff in Hin as ([k' v] & <- & Hin).
  apply filter_In in Hin as [Hin Hk]. simpl in *. split.
  - apply in_map_iff. now exists (k', v).
  - apply negb_true_iff in Hk. now apply String.eqb_neq.
Qed.

Lemma toObject_keys (u : User) (k : string) :
  In k (keys (toObject u)) ->
  In k ["_id"; "email"; "passwordHash"; "fullName"; "phone"; "country";
        "city"; "zipCode"; "referralCode"; "referredBy"; "balance";
        "points"; "createdAt"].
Proof.
  unfold keys, toObject.
  destruct (fullName u), (phone u), (country u), (city u), (zipCode u),
    (balance u); simpl; intuition.
Qed.

Lemma profile_keys (u : User) (k : string) :
  In k (keys (select_minus "passwordHash" (toObject u))) ->
  k <> "error" /\ k <> "passwordHash".
Proof.
  intros Hin. apply keys_select_minus in Hin as [Hin Hk].
  split; [|exact Hk].
  apply toObject_keys in Hin. simpl in Hin.
  intros ->. intuition discriminate.
Qed.

(** The bodies the handlers send. *)
Lemma step_answer (e : env) (op : operation) (s : store) :
  (exists (code : nat) (msg : string),
      fst (step e op s) = error code msg
      /\ In code [400; 401; 404; 500])
  \/ (exists t c : string, fst (step e op s) = registered t c)
  \/ (exists t : string, fst (step e op s) = logged_in t)
  \/ (exists u : User,
         fst (step e op s) = ok (select_minus "passwordHash" (toObject u)))
  \/ fst (step e op s) = ok [("message", JString payment_message)].
Proof.
  destruct op as [r|r|req|req]; cbn [step].
  - destruct (register_cases e r s)
      as [[_ Heq] | [(account & _ & Heq) | [Heq | (_ & _ & _ & s1 & _ & Heq)]]];
      rewrite Heq.
    + left. exists 400, "Email and password required". cbn [fst]. split; [reflexivity | simpl; tauto].
    + left. exists 400, "Email already registered". cbn [fst]. split; [reflexivity | simpl; tauto].
    + left. exists 500, "Server error". cbn [fst]. split; [reflexivity | simpl; tauto].
    + destruct (ending_status e r s s1) as [-> | ->].
      * left. exists 500, "Server error". cbn [fst]. split; [reflexivity | simpl; tauto].
      * right; left. eauto.
  - destruct (login_cases e r s)
      as [Heq | [Heq | [Heq | (account & _ & Heq)]]]; rewrite Heq.
    + left. exists 400, "Email and password required". cbn [fst]. split; [reflexivity | simpl; tauto].
    + left. exists 400, "Invalid credentials". cbn [fst]. split; [reflexivity | simpl; tauto].
    + left. exists 500, "Server error". cbn [fst]. split; [reflexivity | simpl; tauto].
    + right; right; left. cbn [fst]. eauto.
  - destruct (me_cases e req s)
      as [Heq | [Heq | [Heq | [Heq | (account & Heq)]]]]; rewrite Heq.
    + left. exists 401, "No token". cbn [fst]. split; [reflexivity | simpl; tauto].
    + left. exists 401, "Invalid token". cbn [fst]. split; [reflexivity | simpl; tauto].
    + left. exists 500, "Server error". cbn [fst]. split; [reflexivity | simpl; tauto].
    + left. exists 404, "User not found". cbn [fst]. split; [reflexivity | simpl; tauto].
    + right; right; right; left. now exists account.
  - destruct (payment_cases e req s) as [Heq | [Heq | Heq]]; rewrite Heq.
    + left. exists 401, "No token". cbn [fst]. split; [reflexivity | simpl; tauto].
    + left. exists 401, "Invalid token". cbn [fst]. split; [reflexivity | simpl; tauto].
    + right; right; right; right. reflexivity.
Qed.

(** X11.  Every answer of every operation is of one of two kinds: a
    status 200 whose body has no [error] field, or a status 400, 401,
    404 or 500 whose body is exactly [{error: message}]. *)
Theorem answers_are_uniform (e : env) (op : operation) (s : store) :
  (status (fst (step e op s)) = 200
   /\ ~ In "error" (keys (body (fst (step e op s)))))
  \/ (exists msg : string,
         body (fst (step e op s)) = [("error", JString msg)]
         /\ In (status (fst (step e op s))) [400; 401; 404; 500]).
Proof.
  destruct (step_answer e op s)
    as [(code & msg & -> & Hcode) | [(t & c & ->) | [(t & ->)
        | [(u & ->) | ->]]]].
  - right. exists msg. now split.
  - left. split; [reflexivity|]. simpl. intuition discriminate.
  - left. split; [reflexivity|]. simpl. intuition discriminate.
  - left. split; [reflexivity|]. intros Hin.
    now apply profile_keys in Hin as [Hne _].
  - left. split; [reflexivity|]. simpl. intuition discriminate.
Qed.

(** X12.  No answer of any operation has a [passwordHash] field,
    whatever the request, the environment and the collection. *)
Theorem answers_hide_password_hash (e : env) (op : operation) (s : store) :
  ~ In "passwordHash" (keys (body (fst (step e op s)))).
Proof.
  destruct (step_answer e op s)
    as [(code & msg & -> & Hcode) | [(t & c & ->) | [(t & ->)
        | [(u & ->) | ->]]]];
    try (simpl; intuition discriminate).
  intros Hin. now apply profile_keys in Hin as [_ Hne].
Qed.

(** ** More on the guard *)

Lemma header_of_truthy (scheme rest : string) :
  JS.truthy (Some (header_of scheme rest)) = true.
Proof.
  unfold header_of. now destruct scheme.
Qed.

Lemma token_of_header_with_rest (scheme t rest : string) :
  no_space scheme = true ->
  no_space t = true ->
  token_of (header_with_rest scheme t rest) = Some t.
Proof.
  intros Hs Ht. unfold token_of, header_with_rest, header_of.
  now rewrite (split_word scheme _ Hs), (split_word t rest Ht).
Qed.

(** X13.  Whatever follows the token in the header is ignored: a header
    [scheme token rest] whose token verifies is let through with the
    claims of the token, for any scheme word and any text after the
    token's space. *)
Theorem auth_ignores_rest (e : env) (req : request)
        (scheme t rest : string) (data : claims) :
  authorization req = Some (header_with_rest scheme t rest) ->
  no_space scheme = true ->
  no_space t = true ->
  jwt_verify e t = Some data ->
  auth e req = Next (mkRequest (authorization req) (Some data)).
Proof.
  intros Hh Hs Ht Hv.
  rewrite (auth_present e req _ Hh (header_of_truthy scheme _)).
  rewrite (token_of_header_with_rest scheme t rest Hs Ht). simpl.
  now rewrite Hv, Hh.
Qed.

Lemma auth_ignores_rest_witness :
  auth Sample.quiet (Sample.bearer "Bearer jwt.a@x.com and more")
  = Next (mkRequest (Some "Bearer jwt.a@x.com and more")
                    (Some (mkClaims 1 "a@x.com"))).
Proof.
  exact (auth_ignores_rest Sample.quiet
           (Sample.bearer "Bearer jwt.a@x.com and more")
           "Bearer" "jwt.a@x.com" "and more" (mkClaims 1 "a@x.com")
           eq_refl eq_refl eq_refl eq_refl).
Defined.

Lemma auth_next_inv (e : env) (req req' : request) :
  auth e req = Next req' ->
  exists (header t : string) (data : claims),
    authorization req = Some header
    /\ token_of header = Some t
    /\ jwt_verify e t = Some data
    /\ req' = mkRequest (authorization req) (Some data).
Proof.
  unfold auth. destruct (authorization req) as [header|] eqn:Hh;
    [|discriminate].
  destruct (negb (JS.truthy (Some header))); [discriminate|].
  cbn [JS.text]. destruct (token_of header) as [t|] eqn:Ht; [|discriminate].
  cbn [verify]. destruct (jwt_verify e t) as [data|] eqn:Hv; [|discriminate].
  intros [= <-]. now exists header, t, data.
Qed.

(** X14.  The payment stub answers its fixed message, with status 200,
    exactly when the second segment of the authorization header
    verifies; the body of the request plays no part, and the collection
    is never touched. *)
Theorem payment_simulated_iff (e : env) (req : request) (s : store) :
  snd (payment e req s) = s
  /\ (fst (payment e req s) = ok [("message", JString payment_message)]
      <-> exists (header t : string) (data : claims),
            authorization req = Some header
            /\ token_of header = Some t
            /\ jwt_verify e t = Some data)
  /\ (status (fst (payment e req s)) = 200
      \/ status (fst (payment e req s)) = 401).
Proof.
  split; [apply payment_store|]. split; [split|].
  - unfold payment, guarded. destruct (auth e req) as [r|req'] eqn:Ha.
    + destruct (auth_cases e req) as [Hr | [Hr | [data Hr]]];
        rewrite Ha in Hr; try discriminate Hr;
        injection Hr as ->; discriminate.
    + intros _. destruct (auth_next_inv e req req' Ha)
        as (header & t & data & Hh & Ht & Hv & _).
      now exists header, t, data.
  - intros (header & t & data & Hh & Ht & Hv).
    unfold payment, guarded.
    rewrite (auth_present e req header Hh (header_with_token header t Ht)).
    rewrite Ht. simpl. now rewrite Hv.
  - destruct (payment_cases e req s) as [-> | [-> | ->]]; auto.
Qed.

(** ** Login, then the profile *)

Lemma logged_in_token (t t' : string) : logged_in t = logged_in t' -> t = t'.
Proof.
  unfold logged_in, ok. now intros [= ->].
Qed.

(** X15.  The token of a successful login opens the profile of the
    account that logged in: when the login for the email of [account]
    is answered with [token], and the verifier returns the claims that
    the signer signed for this account, the request [Bearer token] to
    the profile route is answered with the document of [account]
    without its [passwordHash]. *)
Theorem login_then_me (e1 e2 : env) (r : login_request) (s : store)
        (account : User) (token : string) :
  Db.wf s ->
  Db.findOne (Db.by_email (JS.text (login_email r))) s = Some account ->
  login e1 r s = (logged_in token, s) ->
  jwt_verify e2 (jwt_sign e1 (mkClaims (_id account) (email account)))
  = Some (mkClaims (_id account) (email account)) ->
  no_space token = true ->
  fails e2 FindById = false ->
  me e2 (mkRequest (Some (header_of "Bearer" token)) None) s
  = (mkResponse 200 (select_minus "passwordHash" (toObject account)), s).
Proof.
  intros Hwf Hfound Hlogin Hverify Hword Hq.
  assert (token = jwt_sign e1 (mkClaims (_id account) (email account))) as Ht.
  { destruct (login_cases e1 r s)
      as [Heq | [Heq | [Heq | (account' & Hfound' & Heq)]]];
      rewrite Heq in Hlogin; try discriminate Hlogin.
    rewrite Hfound in Hfound'. injection Hfound' as <-.
    pose proof (f_equal fst Hlogin) as Hbody. cbn [fst] in Hbody.
    symmetry. now apply logged_in_token. }
  unfold me, guarded.
  rewrite (auth_present e2
             (mkRequest (Some (header_of "Bearer" token)) None)
             (header_of "Bearer" token) eq_refl
             (header_of_truthy "Bearer" token)).
  rewrite (token_of_header "Bearer" token eq_refl Hword).
  cbn [verify]. rewrite Ht, Hverify.
  unfold try_catch, me_body. cbn [user id]. unfold bind, query.
  rewrite Hq. unfold findById_select.
  rewrite (wf_first_by_id s account Hwf (proj1 (findOne_in _ _ _ Hfound))).
  reflexivity.
Qed.

Lemma login_then_me_witness :
  me Sample.half (mkRequest (Some (header_of "Bearer" "jwt.a@x.com")) None)
     Sample.accounts
  = (mkResponse 200 (select_minus "passwordHash" (toObject Sample.alice)),
     Sample.accounts).
Proof.
  refine (login_then_me Sample.quiet Sample.half
            (mkLogin (Some "a@x.com") (Some "pw1")) Sample.accounts
            Sample.alice "jwt.a@x.com"
            _ eq_refl eq_refl eq_refl eq_refl eq_refl).
  unfold Db.wf. simpl.
  repeat constructor; simpl; intuition discriminate.
Defined.

(** ** Repeated sponsoring *)

Lemma with_balance_same (u : User) : with_balance u (balance u) = u.
Proof. now destruct u. Qed.

Lemma set_balance_by_referral (code : string) (b : JS.number) (s : store)
      (sponsor : User) :
  Db.wf s ->
  Db.findOne (Db.by_referral code) s = Some sponsor ->
  Db.findOne (Db.by_referral code) (Db.set_balance (_id sponsor) b s)
  = Some (with_balance sponsor b).
Proof.
  unfold Db.wf. induction s as [|u rest IH]; simpl; [discriminate|].
  intros Hnd Hfound. inversion Hnd as [|? ? Hfresh Hrest]; subst.
  destruct (Db.by_referral code u) eqn:Hu.
  - injection Hfound as <-. unfold Db.by_id. rewrite Nat.eqb_refl. simpl.
    unfold Db.by_referral in *. simpl. now rewrite Hu.
  - pose proof (proj1 (findOne_in _ _ _ Hfound)) as Hin.
    unfold Db.by_id at 1.
    destruct (Nat.eqb_spec (_id u) (_id sponsor)) as [E|_].
    + exfalso. apply Hfresh. rewrite E. now apply in_map.
    + simpl. rewrite Hu. now apply IH.
Qed.

(** Crediting again and again stays exact while the total stays below
    [2^53]. *)
Lemma iter_credit (n : nat) (b : JS.number) (v : Z) :
  JS.or_zero b = JS.Num v ->
  (Z.abs v + 1000 * Z.of_nat (S n) < 2 ^ 53)%Z ->
  Nat.iter (S n) credit b = JS.Num (v + 1000 * Z.of_nat (S n)).
Proof.
  intros Hv. induction n as [|n IH]; intros Hbound.
  - change (Nat.iter 1 credit b) with (credit b).
    unfold credit, commission. rewrite Hv. cbn [JS.plus].
    rewrite round_exact by lia. f_equal; lia.
  - change (Nat.iter (S (S n)) credit b)
      with (credit (Nat.iter (S n) credit b)).
    rewrite IH by lia. rewrite credit_exact by lia.
    f_equal; lia.
Qed.

(** One registration of the sequence: nothing throws, it passes
    validation and names the code; its email is new. *)
Lemma register_sponsored (e : env) (r : register_request) (s : store)
      (sponsor : User) (code : string) :
  (forall c : call, fails e c = false) ->
  JS.truthy (reg_email r) = true ->
  JS.truthy (reg_password r) = true ->
  reg_referralCode r = Some code ->
  code <> EmptyString ->
  Db.findOne (Db.by_email (JS.text (reg_email r))) s = None ->
  Db.findOne (Db.by_referral code) s = Some sponsor ->
  snd (register e r s) = credited sponsor s ++ [candidate e r s].
Proof.
  intros Hquiet He Hp Hcode Hne Hu Hk.
  assert (JS.truthy (reg_referralCode r) = true) as Hc
      by (rewrite Hcode; now apply nonempty_truthy).
  assert (Db.findOne (Db.by_referral (JS.text (reg_referralCode r))) s
          = Some sponsor) as Hk' by (now rewrite Hcode).
  rewrite (register_with_sponsor_saved e r s He Hp (Hquiet _) Hu (Hquiet _)
             sponsor Hc (Hquiet _) Hk' (Hquiet _)).
  unfold ending. now rewrite !Hquiet.
Qed.

Lemma credits_iterate (rs : list (env * register_request)) (code : string) :
  code <> EmptyString ->
  forall (s : store) (sponsor : User),
    Db.wf s ->
    Db.findOne (Db.by_referral code) s = Some sponsor ->
    (forall (e : env) (r : register_request),
        In (e, r) rs ->
        (forall c : call, fails e c = false)
        /\ JS.truthy (reg_email r) = true
        /\ JS.truthy (reg_password r) = true
        /\ reg_referralCode r = Some code
        /\ Db.findOne (Db.by_email (JS.text (reg_email r))) s = None) ->
    NoDup (map (fun er => JS.text (reg_email (snd er))) rs) ->
    Db.findOne (Db.by_id (_id sponsor)) (run (as_registrations rs) s)
    = Some (with_balance sponsor
              (Nat.iter (List.length rs) credit (balance sponsor))).
Proof.
  intros Hne. induction rs as [|[e r] rest IH]; intros s sponsor Hwf Hk Hall Hnd.
  - simpl. rewrite with_balance_same.
    apply wf_first_by_id; [exact Hwf | now apply findOne_in in Hk].
  - destruct (Hall e r (or_introl eq_refl)) as (Hquiet & He & Hp & Hcode & Hu).
    pose proof (register_sponsored e r s sponsor code
                  Hquiet He Hp Hcode Hne Hu Hk) as Hstore.
    cbn [as_registrations map fst snd run step].
    fold (as_registrations rest).
    pose proof (register_wf e r s Hwf) as Hwf'.
    rewrite Hstore in *.
    inversion Hnd as [|? ? Hnew Hrest]; subst.
    assert (Db.findOne (Db.by_referral code)
              (credited sponsor s ++ [candidate e r s])
            = Some (with_balance sponsor (credit (balance sponsor)))) as Hk'.
    { apply findOne_app. unfold credited.
      now apply set_balance_by_referral. }
    assert (forall (e' : env) (r' : register_request),
               In (e', r') rest ->
               (forall c : call, fails e' c = false)
               /\ JS.truthy (reg_email r') = true
               /\ JS.truthy (reg_password r') = true
               /\ reg_referralCode r' = Some code
               /\ Db.findOne (Db.by_email (JS.text (reg_email r')))
                              (credited sponsor s ++ [candidate e r s])
                  = None) as Hall'.
    { intros e' r' Hin.
      destruct (Hall e' r' (or_intror Hin)) as (Hq' & He' & Hp' & Hc' & Hu').
      repeat split; try assumption.
      rewrite findOne_app_miss
        by (unfold credited; now apply set_balance_email_free).
      simpl. unfold Db.by_email. simpl.
      destruct (String.eqb_spec (JS.text (reg_email r))
                                (JS.text (reg_email r'))) as [E|_];
        [|reflexivity].
      exfalso. apply Hnew. simpl in E. simpl. rewrite E.
      apply in_map_iff. now exists (e', r'). }
    pose proof (IH (credited sponsor s ++ [candidate e r s])
                   (with_balance sponsor (credit (balance sponsor)))
                   Hwf' Hk' Hall' Hrest) as Hrec.
    cbn [with_balance _id balance] in Hrec. rewrite Hrec.
    cbn [List.length]. now rewrite Nat.iter_swap.
Qed.

(** X16.  Crediting is repeated, not remembered: when a sequence of
    registrations with different new emails all pass validation, name
    the referral code of the same account and run without a throw, the
    account stored under the sponsor's id in the end is the sponsor's
    document with the addition of line 73 applied to its balance once
    for each registration; for a sponsor whose balance is falsy or an
    integer, that is its previous numeric value (or 0) plus 1000 for
    each registration, as long as this total stays below [2^53]. *)
Theorem sponsor_credit_accumulates (rs : list (env * register_request))
        (s : store) (sponsor : User) (code : string) :
  Db.wf s ->
  code <> EmptyString ->
  Db.findOne (Db.by_referral code) s = Some sponsor ->
  (forall (e : env) (r : register_request),
      In (e, r) rs ->
      (forall c : call, fails e c = false)
      /\ JS.truthy (reg_email r) = true
      /\ JS.truthy (reg_password r) = true
      /\ reg_referralCode r = Some code
      /\ Db.findOne (Db.by_email (JS.text (reg_email r))) s = None) ->
  NoDup (map (fun er => JS.text (reg_email (snd er))) rs) ->
  exists stored : User,
    Db.findOne (Db.by_id (_id sponsor)) (run (as_registrations rs) s)
    = Some stored
    /\ same_but_balance sponsor stored
    /\ balance stored = Nat.iter (List.length rs) credit (balance sponsor)
    /\ (forall v : Z,
           rs <> [] ->
           JS.or_zero (balance sponsor) = JS.Num v ->
           (Z.abs v + 1000 * Z.of_nat (List.length rs) < 2 ^ 53)%Z ->
           balance stored = JS.Num (v + 1000 * Z.of_nat (List.length rs))).
Proof.
  intros Hwf Hne Hk Hall Hnd.
  exists (with_balance sponsor
            (Nat.iter (List.length rs) credit (balance sponsor))).
  split; [now apply credits_iterate with code|].
  split; [reflexivity|]. split; [reflexivity|].
  intros v Hrs Hv Hbound. cbn [balance with_balance].
  destruct rs as [|er rest]; [congruence|].
  cbn [List.length] in *. now apply iter_credit.
Qed.

Lemma sponsor_credit_accumulates_witness :
  exists stored : User,
    Db.findOne (Db.by_id 2)
      (run (as_registrations
              [(Sample.quiet, Sample.join "b@x.com" "pw2" (Some "GGC3C3C3"));
               (Sample.half, Sample.join "d@x.com" "pw4" (Some "GGC3C3C3"))])
           Sample.accounts)
    = Some stored
    /\ balance stored = JS.Num (0 + 1000 * 2).
Proof.
  assert (Db.wf Sample.accounts) as Hwf.
  { unfold Db.wf. simpl. repeat constructor; simpl; intuition discriminate. }
  assert (NoDup ["b@x.com"; "d@x.com"]) as Hnd.
  { repeat constructor; simpl; intuition discriminate. }
  destruct (sponsor_credit_accumulates
              [(Sample.quiet, Sample.join "b@x.com" "pw2" (Some "GGC3C3C3"));
               (Sample.half, Sample.join "d@x.com" "pw4" (Some "GGC3C3C3"))]
              Sample.accounts Sample.carol "GGC3C3C3" Hwf
              ltac:(discriminate) eq_refl
              ltac:(intros e r [H | [H | []]]; injection H as <- <-;
                    repeat split; reflexivity)
              Hnd)
    as (stored & Hfound & _ & _ & Hexact).
  exists stored. split; [exact Hfound|].
  exact (Hexact 0%Z ltac:(discriminate) eq_refl eq_refl).
Defined.

(** ** Edge cases of registration *)

(** X17.  An empty referral code is no referral code: a registration
    whose [referralCode] is the empty string does exactly what the same
    request without the field does, answer and collection alike; no
    sponsor is looked up and [referredBy] is stored as null. *)
Theorem register_empty_code (e : env) (s : store)
        (mail pw name tel land town zip : option string) :
  register e (mkRegister mail pw name tel land town zip (Some EmptyString)) s
  = register e (mkRegister mail pw name tel land town zip None) s
  /\ credit_sponsor e
       (mkRegister mail pw name tel land town zip (Some EmptyString)) s
     = (Value tt, s)
  /\ referredBy
       (candidate e
          (mkRegister mail pw name tel land town zip (Some EmptyString)) s)
     = None.
Proof.
  repeat split.
Qed.

(** X18.  A throw before the new document is saved undoes nothing but
    also starts nothing it should not: when the email lookup or
    [bcrypt.hash] throws, or the sponsor lookup throws for a request
    that names a code, the registration is answered 500 "Server error"
    and the collection is unchanged, so no sponsor is credited and no
    account is created, whatever code the request names. *)
Theorem register_throws_early (e : env) (r : register_request) (s : store) :
  JS.truthy (reg_email r) = true ->
  JS.truthy (reg_password r) = true ->
  fails e FindByEmail = true
  \/ (Db.findOne (Db.by_email (JS.text (reg_email r))) s = None
      /\ (fails e Hash = true
          \/ (JS.truthy (reg_referralCode r) = true
              /\ fails e FindByReferral = true))) ->
  register e r s = (error 500 "Server error", s).
Proof.
  intros He Hp [Hl | [Hu [Hh | [Hc Hq]]]].
  - apply register_early_throw; auto.
  - apply register_early_throw; auto.
  - destruct (fails e FindByEmail) eqn:Hl;
      [apply register_early_throw; auto|].
    destruct (fails e Hash) eqn:Hh;
      [apply register_early_throw; auto|].
    rewrite (register_checked e r s He Hp Hl Hu Hh).
    unfold try_catch, persist_and_answer, bind.
    now rewrite (credit_sponsor_lookup_throws e r s Hc Hq).
Qed.

Lemma register_throws_early_witness :
  register Cover.all_down (Sample.join "b@x.com" "pw2" (Some "GGR1R1R1"))
           Sample.accounts
  = (error 500 "Server error", Sample.accounts).
Proof.
  exact (register_throws_early Cover.all_down
           (Sample.join "b@x.com" "pw2" (Some "GGR1R1R1")) Sample.accounts
           eq_refl eq_refl (or_introl eq_refl)).
Defined.
